(** * The extraction-merge-modify pipeline of [components/input.py]

    A shallow embedding of the functions of [components/input.py]
    ([parse_data_by_regex], [process_txt_file], [merge_data_into_dict],
    [scrape_data], [apply_modifiers], [process_hanja_txt]) and the
    properties of the pipeline that the design document states; then of
    the fetch loop, the alignment and the CSV export of [main.py], with
    further properties of both files.

    Conventions of the embedding:
    - a Python [str] is a [string] holding its UTF-8 bytes (the input file
      is opened with [encoding="utf-8"]);
    - a Python [dict] with string keys is a [gmap string _]; where the
      iteration order of a dict is observed (the group dictionary of a
      match, the keys of [entry_dict]) it is a list in that order;
    - a raised exception is the [Raise] branch of [pyresult];
    - the dicts that [apply_modifiers] updates in place are objects of a
      heap, named by their identities, and a collection is the list of
      the identities at its positions, so that one dict can sit at
      several positions;
    - logging and the calls to the scraping collaborators are recorded, in
      program order, in the trace of the monad [M]. *)

From stdpp Require Import gmap strings list fin_maps.
From Stdlib Require Import Ascii.
From Stdlib Require String.

(** ** Python values, exceptions and results *)

Module Py.

(** The exceptions the pipeline can raise.  The two [ValueError]s of
    [parse_data_by_regex] carry the pattern index of their message. *)
Inductive exn : Type :=
| ValueError_tuple_len (i len : nat)
    (* "Invalid number of elements in tuple pattern at index i. Expected 2, got len" *)
| ValueError_datatype (i : nat)
    (* "Invalid datatype for pattern at index i" *)
| ValueError_unpack (got : nat)
    (* "not enough values to unpack (expected at least 2, got n)" *)
| ValueError_empty_separator
    (* str.split with an empty separator *)
| IndexError
| AttributeError
    (* None has no attribute split *)
| KeyError (key : string)
| UnboundLocalError (var : string)
    (* a subclass of NameError *)
| re_error
    (* re.match on a pattern that does not compile *)
| OSError.

Global Instance exn_eq_dec : EqDecision exn.
Proof. solve_decision. Defined.

(** [ValueError] with a message that names the pattern index [i]. *)
Definition is_config_error_at (i : nat) (e : exn) : bool :=
  match e with
  | ValueError_tuple_len j _ | ValueError_datatype j => bool_decide (i = j)
  | _ => false
  end.

(** [isinstance(e, NameError)] *)
Definition is_NameError (e : exn) : bool :=
  match e with UnboundLocalError _ => true | _ => false end.

Inductive pyresult (A : Type) : Type :=
| Ok (a : A)
| Raise (e : exn).
Global Arguments Ok {A} a.
Global Arguments Raise {A} e.

Global Instance pyresult_ret : MRet pyresult := @Ok.
Global Instance pyresult_bind : MBind pyresult := fun A B f m =>
  match m with Ok a => f a | Raise e => Raise e end.

Definition is_Ok {A} (r : pyresult A) : bool :=
  match r with Ok _ => true | Raise _ => false end.
Definition is_Raise {A} (r : pyresult A) : bool := negb (is_Ok r).

(** The values a record field holds: [None], a [str], or the list of
    strings that [str.split] returns. *)
Inductive value : Type :=
| VNone
| VStr (s : string)
| VList (l : list string).

Global Instance value_eq_dec : EqDecision value.
Proof. solve_decision. Defined.

(** A record: a dict from field name to value. *)
Abbreviation record := (gmap string value).

(** [d[key]] *)
Definition getitem {V} (d : gmap string V) (key : string) : pyresult V :=
  match d !! key with
  | Some v => Ok v
  | None => Raise (KeyError key)
  end.

(** [d.get(key, default)] *)
Definition dict_get {V} (d : gmap string V) (key : string) (default : V) : V :=
  match d !! key with
  | Some v => v
  | None => default
  end.

(** [l[i]] for [i >= 0] *)
Definition list_getitem {A} (l : list A) (i : nat) : pyresult A :=
  match l !! i with
  | Some x => Ok x
  | None => Raise IndexError
  end.

(** [for x in l: acc.append(f(x))]: the first exception ends the loop. *)
Fixpoint for_append {A B} (f : A -> pyresult B) (l : list A) (acc : list B)
  : pyresult (list B) :=
  match l with
  | [] => Ok acc
  | x :: l' => y ← f x; for_append f l' (acc ++ [y])
  end.

(** [[f(x) for x in l]] *)
Definition comprehension {A B} (f : A -> pyresult B) (l : list A)
  : pyresult (list B) :=
  for_append f l [].

End Py.
Import Py.

(** ** [str] methods *)

Module Str.

Definition NL : string := String (ascii_of_nat 10) "".

(** [str.isspace] on the code points below U+0080:
    U+0009..U+000D, U+001C..U+001F and U+0020. *)
Definition space1 (a : ascii) : bool :=
  let n := nat_of_ascii a in
  ((9 <=? n) && (n <=? 13)) || ((28 <=? n) && (n <=? 32)).

(** ... on the code points encoded in two bytes: U+0085 and U+00A0. *)
Definition space2 (a b : ascii) : bool :=
  (nat_of_ascii a =? 194) &&
  ((nat_of_ascii b =? 133) || (nat_of_ascii b =? 160)).

(** ... and in three bytes: U+1680, U+2000..U+200A, U+2028, U+2029,
    U+202F, U+205F and U+3000. *)
Definition space3 (a b c : ascii) : bool :=
  let '(x, y, z) := (nat_of_ascii a, nat_of_ascii b, nat_of_ascii c) in
  ((x =? 225) && (y =? 154) && (z =? 128))
  || ((x =? 226) && (y =? 128) &&
      (((128 <=? z) && (z <=? 138)) || (z =? 168) || (z =? 169) || (z =? 175)))
  || ((x =? 226) && (y =? 129) && (z =? 159))
  || ((x =? 227) && (y =? 128) && (z =? 128)).

(** Drops the white-space code points at the head of [s].  With
    [backwards], [s] is a reversed string, so the bytes of a code point
    come last byte first. *)
Fixpoint strip_head (backwards : bool) (s : string) : string :=
  match s with
  | String a r1 =>
      if space1 a then strip_head backwards r1
      else
        match r1 with
        | String b r2 =>
            if (if backwards then space2 b a else space2 a b)
            then strip_head backwards r2
            else
              match r2 with
              | String c r3 =>
                  if (if backwards then space3 c b a else space3 a b c)
                  then strip_head backwards r3
                  else s
              | EmptyString => s
              end
        | EmptyString => s
        end
  | EmptyString => s
  end.

Definition lstrip (s : string) : string := strip_head false s.
Definition rstrip (s : string) : string :=
  String.rev (strip_head true (String.rev s)).

(** [s.strip()] *)
Definition strip (s : string) : string := rstrip (lstrip s).

(** [s.split(sep)] for a non-empty [sep], scanning left to right:
    [cur] is the piece being read, [skip] the number of bytes of a
    separator occurrence still to pass over. *)
Fixpoint split_go (sep s : string) (skip : nat) (cur : string) : list string :=
  match s with
  | EmptyString => [cur]
  | String a s' =>
      match skip with
      | S k => split_go sep s' k cur
      | O =>
          if String.prefix sep s
          then cur :: split_go sep s' (String.length sep - 1) ""
          else split_go sep s' 0 (cur +:+ String a "")
      end
  end.

(** [s.split(sep)]: [ValueError("empty separator")] when [sep] is empty. *)
Definition split (s sep : string) : pyresult (list string) :=
  if decide (sep = "") then Raise ValueError_empty_separator
  else Ok (split_go sep s 0 "").

(** [s.startswith(p)] *)
Definition startswith (s p : string) : bool := String.prefix p s.

(** [os.path.join(a, b)] on POSIX for a non-empty [a] without trailing
    slash: an absolute [b] replaces [a]. *)
Definition path_join (a b : string) : string :=
  if startswith b "/" then b else a +:+ "/" +:+ b.

(** [sep.join(parts)] *)
Fixpoint join (sep : string) (parts : list string) : string :=
  match parts with
  | [] => ""
  | [p] => p
  | p :: ps => p +:+ sep +:+ join sep ps
  end.

End Str.

(** ** Pattern specifications and the regex engine *)

(** The group dictionary of a successful match, [match.groupdict()], in
    the order of the dict: a named group that took no part in the match
    maps to [None]. *)
Definition groupdict : Type := list (string * option string).

(** [re.match(pattern, line)]: the engine is the standard library's, not
    this repository's.  It raises [re.error] on a pattern it cannot
    compile, returns [None] when the pattern does not match at the start
    of [line], and a match object otherwise. *)
Definition regex_engine : Type := string -> string -> pyresult (option groupdict).

(** An element of [patterns], by the run-time type tests of
    [parse_data_by_regex]: a [str], a [tuple] (of strings), or an object
    of any other type. *)
Inductive pattern : Type :=
| PStr (regex : string)
| PTuple (elems : list string)
| POther.

Definition value_of_group (g : option string) : value :=
  match g with
  | Some s => VStr s
  | None => VNone
  end.

(** [result.update(match.groupdict())] *)
Definition dict_update (result : record) (gd : groupdict) : record :=
  foldl (fun r kv => <[kv.1 := value_of_group kv.2]> r) result gd.

(** [v.split(delimiter)] for the value of a record field. *)
Definition value_split (v : value) (delimiter : string) : pyresult (list string) :=
  match v with
  | VStr s => Str.split s delimiter
  | VNone | VList _ => Raise AttributeError
  end.

(** ** [parse_data_by_regex] and [process_txt_file] *)

(** [file_path], placed under [data/input] unless it already is. *)
Definition input_path (file_path : string) : string :=
  if Str.startswith file_path "data/input/" then file_path
  else Str.path_join "data/input" file_path.

Section Extraction.

Variable re_match : regex_engine.

(** The file system, as [open(path, "r", encoding="utf-8").read()] sees
    it. *)
Variable read_file : string -> pyresult string.

(** [lines = data.strip().split("\n")] *)
Definition lines_of (data : string) : list string :=
  Str.split_go Str.NL (Str.strip data) 0 "".

(** The body of the loop of [parse_data_by_regex] for pattern [i]. *)
Definition parse_step (lines : list string) (result : record) (i : nat)
    (p : pattern) : pyresult record :=
  match p with
  | PStr regex =>
      line ← list_getitem lines i;
      m ← re_match regex line;
      match m with
      | Some gd => Ok (dict_update result gd)
      | None => Ok result
      end
  | PTuple elems =>
      match elems with
      | regex :: delimiter :: rest =>
          match rest with
          | _ :: _ => Raise (ValueError_tuple_len i (length elems))
          | [] =>
              line ← list_getitem lines i;
              m ← re_match regex line;
              match m with
              | Some gd =>
                  let result := dict_update result gd in
                  key ← list_getitem gd.*1 0;
                  match result !! key with
                  | Some v =>
                      parts ← value_split v delimiter;
                      Ok (<[key := VList parts]> result)
                  | None => Ok result
                  end
              | None => Ok result
              end
          end
      | _ => Raise (ValueError_unpack (length elems))
      end
  | POther => Raise (ValueError_datatype i)
  end.

(** [for i, pattern in enumerate(patterns): ...], from index [i] on. *)
Fixpoint parse_loop (lines : list string) (i : nat) (patterns : list pattern)
    (result : record) : pyresult record :=
  match patterns with
  | [] => Ok result
  | p :: ps =>
      result' ← parse_step lines result i p;
      parse_loop lines (S i) ps result'
  end.

Definition parse_data_by_regex (data : string) (patterns : list pattern)
  : pyresult record :=
  parse_loop (lines_of data) 0 patterns ∅.

(** [for chunk in chunks: processed_data.append(parse_data_by_regex(chunk, patterns))] *)
Definition process_chunks (patterns : list pattern) (chunks : list string)
  : pyresult (list record) :=
  for_append (fun chunk => parse_data_by_regex chunk patterns) chunks [].

Definition process_txt_file (file_path : string) (patterns : list pattern)
    (delimiter : string) : pyresult (list record) :=
  let file_path := input_path file_path in
  content ← read_file file_path;
  chunks ← Str.split content delimiter;
  process_chunks patterns chunks.

End Extraction.

(** The default of [process_txt_file]'s [delimiter]: a blank line. *)
Definition default_delimiter : string := Str.NL +:+ Str.NL.

(** ** [merge_data_into_dict] *)

(** [entry_dict] is only iterated over: it is represented by the list of
    its keys, in iteration order. *)
Definition merge_field (input_entry scrapped_entry : record)
    (merged_dict : record) (key : string) : record :=
  <[key := dict_get input_entry key (dict_get scrapped_entry key VNone)]> merged_dict.

(** The body of the loop of [merge_data_into_dict] for one pair of
    [zip(input_data, scrapped_hanja)]. *)
Definition merge_entry (entry_dict : list string)
    (pair : record * record) : pyresult record :=
  let '(input_entry, scrapped_entry) := pair in
  hanja ← getitem input_entry "hanja";
  let merged_dict : record := {["hanja" := hanja]} in
  Ok (foldl (merge_field input_entry scrapped_entry) merged_dict entry_dict).

Definition merge_data_into_dict (entry_dict : list string)
    (input_data scrapped_hanja : list record) : pyresult (list record) :=
  for_append (merge_entry entry_dict) (zip input_data scrapped_hanja) [].

(** ** Effects: collaborator calls and warnings *)

(** How a warning names a modifier: [modifier.__name__] for a callable,
    the text of the tuple (its function and its column) otherwise. *)
Inductive modifier_label : Type :=
| ByName (name : string)
| ByRepr (func_name column : string).

Inductive warning : Type :=
| ErrorInModifier (m : modifier_label)
    (* "Error occurred in modifier: ..." *)
| ErrorInEntry (entry : record).
    (* "Error in entry: ..." *)

Inductive effect : Type :=
| ScrapeHanja (hanjas : list value)
| ScrapeWords (pairs : list (value * value))
| Warn (w : warning).

(** A computation that raises or returns, after the effects of [trace]
    in that order. *)
Record M (A : Type) : Type := MkM { trace : list effect; outcome : pyresult A }.
Global Arguments MkM {A} trace outcome.
Global Arguments trace {A} m.
Global Arguments outcome {A} m.

Global Instance M_ret : MRet M := fun A a => MkM [] (Ok a).
Global Instance M_bind : MBind M := fun A B f m =>
  match outcome m with
  | Ok a => MkM (trace m ++ trace (f a)) (outcome (f a))
  | Raise e => MkM (trace m) (Raise e)
  end.

Definition lift {A} (r : pyresult A) : M A := MkM [] r.
Definition emit (e : effect) : M unit := MkM [e] (Ok ()).

(** ** [scrape_data] *)

Section Enrichment.

(** The scraping collaborators [components.hanja.scrape_hanja] and
    [components.word.scrape_multiple_words].
    Modelled from the spec: both modules are absent from the sources; the
    design document gives their contract only, "returning results
    positionally aligned with the input sequence; a missing/unresolvable
    identifier yields an entry whose fields are absent rather than
    raising".  They are taken as arbitrary functions that return. *)
Variable scrape_hanja : list value -> list record.
Variable scrape_multiple_words : list (value * value) -> list record.

Definition scrape_data (input_data : list record) (entry_dict : list string)
  : M (list record * list record) :=
  hanjas ← lift (comprehension (fun entry => getitem entry "hanja") input_data);
  _ ← emit (ScrapeHanja hanjas);
  let scrapped_hanja := scrape_hanja hanjas in
  pairs ← lift (comprehension
                  (fun input_entry =>
                     h ← getitem input_entry "hanja";
                     w ← getitem input_entry "words";
                     Ok (h, w))
                  input_data);
  _ ← emit (ScrapeWords pairs);
  let scrapped_words := scrape_multiple_words pairs in
  hanja_data ← lift (merge_data_into_dict entry_dict input_data scrapped_hanja);
  mret (hanja_data, scrapped_words).

End Enrichment.

(** ** [apply_modifiers] *)

(** A Python function: its [__name__] and what a call does. *)
Record pyfunc (A B : Type) : Type := PyFunc { fname : string; fcall : A -> pyresult B }.
Global Arguments PyFunc {A B} fname fcall.
Global Arguments fname {A B} p.
Global Arguments fcall {A B} p a.

(** The dicts of a collection are objects: [apply_modifiers] updates them
    in place, and one dict can sit at several positions of a list.  An
    object is named by its identity, and the heap gives the dict that
    each identity holds. *)
Abbreviation heap := (gmap nat record).

(** The dict with identity [r].  Python has no identity without an
    object; an identity that the heap does not list reads as the empty
    dict. *)
Definition deref (h : heap) (r : nat) : record := default ∅ (h !! r).

(** The dicts of the list [data], position by position. *)
Definition deref_all (h : heap) (data : list nat) : list record := deref h <$> data.

(** What a call [modifier(data)] leaves: the heap (the function may
    update dicts in place and build new ones), the elements of the list
    object [data] after the call (the function may change the list
    itself), and the collection it returns or the exception it raises. *)
Record call_result : Type := CallResult {
  heap_after : heap;
  list_after : list nat;
  returned : pyresult (list nat);
}.

(** A Python function of the whole collection: its [__name__] and what a
    call does on the list of the given elements, in the given heap.  The
    functions considered return a list of dicts or raise, and what they
    do depends on the heap and on the list only. *)
Record collection_function : Type := CollectionFunction {
  cname : string;
  ccall : heap -> list nat -> call_result;
}.

(** A modifier, by the [isinstance(modifier, tuple)] test: a function of
    the whole collection, or a pair of a function and a column name. *)
Inductive modifier : Type :=
| WholeCollection (f : collection_function)
| FieldScoped (func : pyfunc value value) (column : string).

(** [modifier.__name__ if callable(modifier) else modifier] *)
Definition label_of (m : modifier) : modifier_label :=
  match m with
  | WholeCollection f => ByName (cname f)
  | FieldScoped func column => ByRepr (fname func) column
  end.

(** The state of the loop of [apply_modifiers]: the heap, the elements
    of the list that [data] refers to, and the local variable [entry],
    unbound until a [for entry in data] iteration binds it to a dict. *)
Record loop_state : Type :=
  LoopState { heap_of : heap; data_of : list nat; entry_of : option nat }.

(** [for entry in data: if column in entry: entry[column] = func(entry[column])]:
    the heap and [entry] after the loop, and the exception that ended
    it, if any.  The assignment updates the dict in place: the updates
    made before the exception stay, and every position that holds the
    dict sees them. *)
Fixpoint modify_entries (func : pyfunc value value) (column : string)
    (h : heap) (data : list nat) (entry : option nat)
  : heap * option nat * option exn :=
  match data with
  | [] => (h, entry, None)
  | r :: rest =>
      match deref h r !! column with
      | Some v =>
          match fcall func v with
          | Ok v' =>
              modify_entries func column
                (<[r := <[column := v']> (deref h r)]> h) rest (Some r)
          | Raise x => (h, Some r, Some x)
          end
      | None => modify_entries func column h rest (Some r)
      end
  end.

(** The [try] block for one modifier.  When [modifier(data)] raises,
    [data] still refers to the list it was called on. *)
Definition try_modifier (m : modifier) (st : loop_state) : loop_state * option exn :=
  match m with
  | FieldScoped func column =>
      let '(h', entry', err) :=
        modify_entries func column (heap_of st) (data_of st) (entry_of st) in
      (LoopState h' (data_of st) entry', err)
  | WholeCollection f =>
      let c := ccall f (heap_of st) (data_of st) in
      match returned c with
      | Ok data' => (LoopState (heap_after c) data' (entry_of st), None)
      | Raise x => (LoopState (heap_after c) (list_after c) (entry_of st), Some x)
      end
  end.

(** The [except] block: two warnings, the second of which reads [entry]
    and shows the dict as it is then. *)
Definition handle_error (m : modifier) (st : loop_state) : M unit :=
  _ ← emit (Warn (ErrorInModifier (label_of m)));
  match entry_of st with
  | Some r => emit (Warn (ErrorInEntry (deref (heap_of st) r)))
  | None => lift (Raise (UnboundLocalError "entry"))
  end.

(** [for modifier in modifiers: try: ... except: ...], then [return data]. *)
Fixpoint modifiers_loop (modifiers : list modifier) (st : loop_state)
  : M (heap * list nat) :=
  match modifiers with
  | [] => mret (heap_of st, data_of st)
  | m :: ms =>
      let '(st', err) := try_modifier m st in
      match err with
      | None => modifiers_loop ms st'
      | Some _ => _ ← handle_error m st'; modifiers_loop ms st'
      end
  end.

(** [apply_modifiers(data, modifiers)] in the heap [h], for a list [data]
    of the given elements; [modifiers] is [None] or a list.  It returns
    the collection together with the heap it leaves. *)
Definition apply_modifiers (h : heap) (data : list nat)
    (modifiers : option (list modifier)) : M (heap * list nat) :=
  match modifiers with
  | None | Some [] => mret (h, data)
  | Some ms => modifiers_loop ms (LoopState h data None)
  end.

(** A list of dicts that are all distinct objects, as
    [merge_data_into_dict] builds one: the dict at position [i] gets the
    identity [i]. *)
Definition allocate (data : list record) : heap * list nat :=
  (map_seq 0 data, seq 0 (length data)).

(** [apply_modifiers] on a list of distinct dicts, the collection it
    returns read as the list of its dicts. *)
Definition apply_modifiers_to_records (data : list record)
    (modifiers : option (list modifier)) : M (list record) :=
  result ← apply_modifiers (allocate data).1 (allocate data).2 modifiers;
  mret (deref_all result.1 result.2).

(** ** [process_hanja_txt] *)

(** The keys of [{key: None for key in keys}], in the order of the dict. *)
Definition dict_keys (keys : list string) : list string :=
  foldl (fun acc k => if decide (k ∈ acc) then acc else acc ++ [k]) [] keys.

(** The two collections that [process_hanja_txt] hands to
    [apply_modifiers] are lists of distinct dicts: [merge_data_into_dict]
    builds a new dict per pair, and the answer of [scrape_multiple_words]
    is a sequence of mappings of its own. *)
Section Orchestrator.

Variable re_match : regex_engine.
Variable read_file : string -> pyresult string.
Variable scrape_hanja : list value -> list record.
Variable scrape_multiple_words : list (value * value) -> list record.

Definition process_hanja_txt (file_path : string) (patterns : list pattern)
    (entry_list : string) (hanja_modifiers words_modifiers : option (list modifier))
  : M (list record * list record) :=
  keys ← lift (Str.split entry_list "|");
  let entry_dict := dict_keys keys in
  input_hanja ← lift (process_txt_file re_match read_file file_path patterns
                        default_delimiter);
  '(hanja_data, scrapped_words) ←
    scrape_data scrape_hanja scrape_multiple_words input_hanja entry_dict;
  hanja_data ← apply_modifiers_to_records hanja_data hanja_modifiers;
  scrapped_words ← apply_modifiers_to_records scrapped_words words_modifiers;
  mret (hanja_data, scrapped_words).

End Orchestrator.

(** ** Data for the examples *)

Module Demo.

(** The characters with a special meaning in a regular expression. *)
Definition special (a : ascii) : bool :=
  bool_decide (a ∈ String.list_ascii_of_string ".^$*+?{}[]\|()").

Definition plain (s : string) : bool :=
  forallb (fun a => negb (special a)) (String.list_ascii_of_string s).

(** An ASCII identifier: letters, digits and [_], not starting with a
    digit. *)
Definition word_char (a : ascii) : bool :=
  let n := nat_of_ascii a in
  ((65 <=? n) && (n <=? 90)) || ((97 <=? n) && (n <=? 122))
  || ((48 <=? n) && (n <=? 57)) || (n =? 95).

Definition identifier (s : string) : bool :=
  match s with
  | String a _ =>
      negb ((48 <=? nat_of_ascii a) && (nat_of_ascii a <=? 57))
      && forallb word_char (String.list_ascii_of_string s)
  | EmptyString => false
  end.

(** The longest prefix of [s] that [.+] can match: [.] matches any
    character but a newline. *)
Fixpoint dot_plus (s : string) : string :=
  match s with
  | String a s' =>
      if Ascii.eqb a (ascii_of_nat 10) then "" else String a (dot_plus s')
  | EmptyString => ""
  end.

(** [s] without its prefix [p], when it starts with it. *)
Fixpoint strip_prefix (p s : string) : option string :=
  match p, s with
  | EmptyString, _ => Some s
  | String a p', String b s' => if Ascii.eqb a b then strip_prefix p' s' else None
  | String _ _, EmptyString => None
  end.

(** [re.match] on the two pattern shapes that the examples use, where
    [lit] is text without special characters and [name] an ASCII
    identifier:
    - [lit]: matches a line that starts with [lit], with no named group;
    - [lit(?P<name>.+)]: matches a line that starts with [lit] followed by
      at least one character, and captures the rest of the line.
    No example applies it to any other pattern; on those it answers
    [re.error], which says nothing about Python's engine. *)
Definition re_match : regex_engine := fun pattern line =>
  match Str.split_go "(?P<" pattern 0 "" with
  | [lit] =>
      if plain lit
      then Ok (match strip_prefix lit line with Some _ => Some [] | None => None end)
      else Raise re_error
  | [lit; group] =>
      match Str.split_go ">" group 0 "" with
      | [name; tail] =>
          if plain lit && identifier name && bool_decide (tail = ".+)")
          then Ok (match strip_prefix lit line with
                   | Some rest =>
                       match dot_plus rest with
                       | EmptyString => None
                       | captured => Some [(name, Some captured)]
                       end
                   | None => None
                   end)
          else Raise re_error
      | _ => Raise re_error
      end
  | _ => Raise re_error
  end.

(** The patterns of a three-line entry: the character, its reading, and
    a comma-separated list of words. *)
Definition patterns : list pattern :=
  [PStr "(?P<hanja>.+)"; PStr "(?P<meaning>.+)"; PTuple ["(?P<words>.+)"; ","]].

(** An input file of two entries separated by a blank line. *)
Definition content : string :=
  "木" +:+ Str.NL +:+ "tree" +:+ Str.NL +:+ "木手,木馬"
  +:+ Str.NL +:+ Str.NL +:+
  "門" +:+ Str.NL +:+ "gate" +:+ Str.NL +:+ "大門,窓門" +:+ Str.NL.

Definition read_file : string -> pyresult string := fun path =>
  if decide (path = "data/input/hanja.txt") then Ok content else Raise OSError.

(** Collaborators that resolve no identifier: one entry without fields
    per input. *)
Definition scrape_hanja : list value -> list record := fun hanjas =>
  (fun _ => ∅) <$> hanjas.
Definition scrape_multiple_words : list (value * value) -> list record := fun pairs =>
  (fun _ => ∅) <$> pairs.

(** The two records of the design document's merge example. *)
Definition primary : record := {["hanja" := VStr "木"; "meaning" := VStr "tree"]}.
Definition secondary : record := {["meaning" := VStr "wood"; "radical" := VStr "木"]}.
Definition merged : record :=
  {["hanja" := VStr "木"; "meaning" := VStr "tree"; "radical" := VStr "木"]}.

(** [lambda text: text.strip()]: raises on a field that holds no [str]. *)
Definition strip_text : pyfunc value value :=
  PyFunc "strip_text"
    (fun v => match v with
              | VStr s => Ok (VStr (Str.strip s))
              | VNone | VList _ => Raise AttributeError
              end).

Definition entry_with (hanja : string) (meaning : value) : record :=
  {["hanja" := VStr hanja; "meaning" := meaning]}.

(** Five records; the second has no meaning yet. *)
Definition five : list record :=
  [entry_with "木" (VStr " tree"); entry_with "門" VNone;
   entry_with "校" (VStr " school"); entry_with "六" (VStr " six");
   entry_with "母" (VStr " mother")].

(** A function of the whole collection that updates no dict and leaves
    the list it is called on as it is: it only builds the list it
    returns. *)
Definition selecting (name : string) (select : list nat -> pyresult (list nat))
  : collection_function :=
  CollectionFunction name (fun h data => CallResult h data (select data)).

(** [lambda data: [data[0]]] *)
Definition first_only : collection_function :=
  selecting "first_only" (fun data => x ← list_getitem data 0; Ok [x]).

(** [lambda data: []] *)
Definition drop_all : collection_function :=
  selecting "drop_all" (fun _ => Ok []).

(** [lambda data: [data[1]]] *)
Definition second_only : collection_function :=
  selecting "second_only" (fun data => x ← list_getitem data 1; Ok [x]).

(** [lambda data: [data[0], data[0]]]: one dict at two positions. *)
Definition twice_first : collection_function :=
  selecting "twice_first" (fun data => x ← list_getitem data 0; Ok [x; x]).

(** [lambda data: [data[2]]] *)
Definition third_only : collection_function :=
  selecting "third_only" (fun data => x ← list_getitem data 2; Ok [x]).

(** [def clear_first(data): data[0].clear(); return [data[1]]]: the
    first dict is emptied in place before [data[1]] is read. *)
Definition clear_first : collection_function :=
  CollectionFunction "clear_first"
    (fun h data =>
       match data with
       | [] => CallResult h data (Raise IndexError)
       | r :: _ => CallResult (<[r := ∅]> h) data (x ← list_getitem data 1; Ok [x])
       end).

(** [lambda text: text + "!"] *)
Definition exclaim : pyfunc value value :=
  PyFunc "exclaim"
    (fun v => match v with
              | VStr s => Ok (VStr (s +:+ "!"))
              | VNone | VList _ => Raise AttributeError
              end).

End Demo.

(** ** Vocabulary of the statements about [apply_modifiers] *)

(** [func] raises on the [column] of [e]. *)
Definition raises_on (func : pyfunc value value) (column : string) (e : record) : bool :=
  match e !! column with
  | Some v => is_Raise (fcall func v)
  | None => false
  end.

(** [e] after [entry[column] = func(entry[column])], for a record that
    has the column and on which [func] returns. *)
Definition updated (func : pyfunc value value) (column : string) (e : record) : record :=
  match e !! column with
  | Some v =>
      match fcall func v with
      | Ok v' => <[column := v']> e
      | Raise _ => e
      end
  | None => e
  end.

(** The heap after one iteration of the field-scoped loop on the dict
    [r], when [func] does not raise on it. *)
Definition visit (func : pyfunc value value) (column : string) (h : heap) (r : nat)
  : heap :=
  match deref h r !! column with
  | Some v =>
      match fcall func v with
      | Ok v' => <[r := <[column := v']> (deref h r)]> h
      | Raise _ => h
      end
  | None => h
  end.

(** The state after the modifiers [ms] when none of them raises. *)
Fixpoint quiet_run (ms : list modifier) (st : loop_state) : option loop_state :=
  match ms with
  | [] => Some st
  | m :: ms' =>
      match try_modifier m st with
      | (st', None) => quiet_run ms' st'
      | (_, Some _) => None
      end
  end.

(** ** Vocabulary of the statements about extraction *)

(** A pattern that is neither a [str] nor a tuple, or a tuple of more
    than two elements: the two shapes that [parse_data_by_regex] answers
    with a [ValueError] of its own. *)
Definition malformed (p : pattern) : bool :=
  match p with
  | PStr _ => false
  | PTuple elems => bool_decide (2 < length elems)
  | POther => true
  end.

(** The [ValueError] that [parse_data_by_regex] raises for a malformed
    pattern at index [i]. *)
Definition config_error (i : nat) (p : pattern) : exn :=
  match p with
  | PTuple elems => ValueError_tuple_len i (length elems)
  | _ => ValueError_datatype i
  end.

(** A [str] or a pair. *)
Definition well_shaped (p : pattern) : bool :=
  match p with
  | PStr _ | PTuple [_; _] => true
  | _ => false
  end.

(** Pattern [p] at index [i] applies to [lines] without raising: the
    line exists, the engine accepts the regex, and for a pair that
    matches, the group dictionary starts with a group that captured text
    and the delimiter is not empty. *)
Definition applies_cleanly (re_match : regex_engine) (lines : list string)
    (i : nat) (p : pattern) : bool :=
  match p, lines !! i with
  | PStr regex, Some line => is_Ok (re_match regex line)
  | PTuple [regex; delimiter], Some line =>
      match re_match regex line with
      | Ok None => true
      | Ok (Some ((key, Some _) :: gd)) =>
          bool_decide (key ∉ gd.*1) && bool_decide (delimiter ≠ "")
      | _ => false
      end
  | _, _ => false
  end.

(** Every pattern, from index [i] on, applies cleanly to its line. *)
Fixpoint patterns_apply (re_match : regex_engine) (lines : list string)
    (i : nat) (patterns : list pattern) : bool :=
  match patterns with
  | [] => true
  | p :: ps =>
      applies_cleanly re_match lines i p && patterns_apply re_match lines (S i) ps
  end.

Definition chunk_applies (re_match : regex_engine) (patterns : list pattern)
    (chunk : string) : bool :=
  patterns_apply re_match (lines_of chunk) 0 patterns.

(** ** [main.py]: the fetch loop, the alignment of the results and the CSV export *)

Module MainScript.

(** The dictionary of details that [get_hanja_data] builds: it always
    has these six keys; "Formation Letter" holds a tuple of one-character
    strings or [None]. *)
Record hanja_info : Type := HanjaInfo {
  Meaning : string;
  Radical : string;
  Stroke_Count : Z;
  Formation_Letter : option (list string);
  Unicode : string;
  Usage : list string;
}.

(** What [get_hanja_data] returns: the tuple [(hanja, hanja_id,
    hanja_info)], or [(hanja, None, None)] when the search does not find
    the character. *)
Definition fetched : Type := string * option string * option hanja_info.

(** A value of a CSV row: a [str] or an [int]. *)
Inductive cell : Type :=
| CStr (s : string)
| CInt (n : Z).

Abbreviation row := (gmap string cell).

Inductive event : Type :=
| BrowserStarted
    (* SeleniumDriver() *)
| BrowserQuit
| LogFetched (idx total : nat) (hanja : string)
    (* logger.info "[idx / total] hanja's data has been fetched." *)
| LogFetchFailed (idx total : nat) (hanja : string)
    (* logger.error "[idx / total] Fetch Failed: hanja'" *)
| LogCrawlFinished
| CsvOpened
| CsvHeader (fieldnames : list string)
| CsvRow (cells : list cell)
| LogExportFinished.

Section WithCollaborators.

(** The exceptions of the collaborators (Selenium, the file system). *)
Context {E : Type}.

Inductive error : Type :=
| TypeError_subscript
    (* 'NoneType' object is not subscriptable *)
| TypeError_join
    (* can only join an iterable *)
| ValueError_fields (wrong : gset string)
    (* dict contains fields not in fieldnames *)
| External (e : E).

Inductive answer (A : Type) : Type :=
| Done (a : A)
| Failed (e : error).
Global Arguments Done {A} a.
Global Arguments Failed {A} e.

(** A computation that fails or returns, after the events of [log]. *)
Record run (A : Type) : Type := Run { log : list event; res : answer A }.
Global Arguments Run {A} log res.
Global Arguments log {A} r.
Global Arguments res {A} r.

Definition run_ret {A} (a : A) : run A := Run [] (Done a).
Definition run_bind {A B} (m : run A) (f : A -> run B) : run B :=
  match res m with
  | Done a => Run (log m ++ log (f a)) (res (f a))
  | Failed e => Run (log m) (Failed e)
  end.
Definition say (ev : event) : run unit := Run [ev] (Done ()).
Definition lift_result {A} (r : answer A) : run A := Run [] r.

(** [get_hanja_data(hanja, browser)]: the function drives the browser
    through Selenium calls and is taken as a parameter; it returns a
    tuple or raises. *)
Variable get_hanja_data : string -> E + fetched.

(** [open("data/hanja_result.csv", "w", ...)]: the exception it raises,
    if any. *)
Variable open_csv : option E.

(** The dict literal of the alignment loop for a result whose
    [hanja_id] is [hanja_id]; its values are evaluated in order. *)
Definition csv_entry (result : fetched) (hanja_id : string) : answer row :=
  match result.2 with
  | None => Failed TypeError_subscript
  | Some info =>
      match Formation_Letter info with
      | None => Failed TypeError_join
      | Some letters =>
          Done (list_to_map
                  [("hanja", CStr result.1.1);
                   ("meaning", CStr (Meaning info));
                   ("radical", CStr (Radical info));
                   ("stroke_count", CInt (Stroke_Count info));
                   ("formation_letter", CStr (Str.join ", " letters));
                   ("unicode", CStr (Unicode info));
                   ("usage", CStr (Str.join ", " (Usage info)));
                   ("naver_hanja_id", CStr hanja_id)])
      end
  end.

(** [for result in results: if result[1] is not None: csv_data.append({...})] *)
Fixpoint align (results : list fetched) (csv_data : list row) : answer (list row) :=
  match results with
  | [] => Done csv_data
  | result :: rest =>
      match result.1.2 with
      | Some hanja_id =>
          match csv_entry result hanja_id with
          | Done entry => align rest (csv_data ++ [entry])
          | Failed e => Failed e
          end
      | None => align rest csv_data
      end
  end.

(** [csv.DictWriter._dict_to_list]: with the default [extrasaction], a
    key outside [fieldnames] is a [ValueError]; a missing field is
    written as the empty string. *)
Definition dict_to_list (fieldnames : list string) (rowdict : row)
  : answer (list cell) :=
  let wrong_fields := dom rowdict ∖ list_to_set fieldnames in
  if decide (wrong_fields = ∅)
  then Done ((fun key => dict_get rowdict key (CStr "")) <$> fieldnames)
  else Failed (ValueError_fields wrong_fields).

(** [for row in data: csvwriter.writerow(row)] *)
Fixpoint write_rows (fieldnames : list string) (data : list row) : run unit :=
  match data with
  | [] => run_ret ()
  | rowdict :: rest =>
      run_bind (lift_result (dict_to_list fieldnames rowdict)) (fun cells =>
      run_bind (say (CsvRow cells)) (fun _ =>
      write_rows fieldnames rest))
  end.

Definition export_to_csv (fieldnames : list string) (data : list row) : run unit :=
  match open_csv with
  | Some e => lift_result (Failed (External e))
  | None =>
      run_bind (say CsvOpened) (fun _ =>
      run_bind (say (CsvHeader fieldnames)) (fun _ =>
      write_rows fieldnames data))
  end.

(** [for idx, hanja in enumerate(hanja_list, 1): ...], from [idx] on. *)
Fixpoint fetch_loop (total idx : nat) (hanjas : list string)
    (results : list fetched) : run (list fetched) :=
  match hanjas with
  | [] => run_ret results
  | hanja :: rest =>
      match get_hanja_data hanja with
      | inl e => lift_result (Failed (External e))
      | inr result =>
          run_bind (say (match result.1.2 with
                         | Some _ => LogFetched idx total hanja
                         | None => LogFetchFailed idx total hanja
                         end)) (fun _ =>
          fetch_loop total (S idx) rest (results ++ [result]))
      end
  end.

Definition fieldnames : list string :=
  ["hanja"; "meaning"; "radical"; "stroke_count"; "formation_letter";
   "unicode"; "usage"; "naver_hanja_id"].

(** [main], for any list of characters in place of its [hanja_list]. *)
Definition main_with (hanja_list : list string) : run unit :=
  run_bind (say BrowserStarted) (fun _ =>
  run_bind (fetch_loop (length hanja_list) 1 hanja_list []) (fun results =>
  run_bind (say BrowserQuit) (fun _ =>
  run_bind (say LogCrawlFinished) (fun _ =>
  run_bind (lift_result (align results [])) (fun csv_data =>
  run_bind (export_to_csv fieldnames csv_data) (fun _ =>
  say LogExportFinished)))))).

(** The characters that [main] looks up.  The second one is the
    compatibility ideograph U+F9D1, as the script has it. *)
Definition hanja_list : list string := ["校"; "六"; "萬"; "母"; "木"; "門"; "民"].

Definition main : run unit := main_with hanja_list.

(** *** Vocabulary of the statements *)

(** The log line of the fetch loop for [result]. *)
Definition fetch_line (total idx : nat) (hanja : string) (result : fetched) : event :=
  match result.1.2 with
  | Some _ => LogFetched idx total hanja
  | None => LogFetchFailed idx total hanja
  end.

(** The log lines of the fetch loop, from index [idx] on. *)
Fixpoint fetch_lines (total idx : nat) (hanjas : list string)
    (results : list fetched) : list event :=
  match hanjas, results with
  | hanja :: hanjas', result :: results' =>
      fetch_line total idx hanja result :: fetch_lines total (S idx) hanjas' results'
  | _, _ => []
  end.

(** A tuple as [get_hanja_data] builds it: an identifier and the details,
    or neither. *)
Definition well_formed (result : fetched) : bool :=
  match result.1.2, result.2 with
  | Some _, Some _ | None, None => true
  | _, _ => false
  end.

Definition found (result : fetched) : bool :=
  match result.1.2 with Some _ => true | None => false end.

(** A found character without formation letters. *)
Definition lacks_formation (result : fetched) : bool :=
  match result.1.2, result.2 with
  | Some _, Some info =>
      match Formation_Letter info with None => true | Some _ => false end
  | _, _ => false
  end.

Definition is_csv (ev : event) : bool :=
  match ev with
  | CsvOpened | CsvHeader _ | CsvRow _ => true
  | _ => false
  end.

(** The cells of [rowdict] in the order of [fieldnames], the empty
    string for a field that it lacks. *)
Definition cells_of (fieldnames : list string) (rowdict : row) : list cell :=
  (fun key => dict_get rowdict key (CStr "")) <$> fieldnames.

(** The keys of [rowdict] are fields. *)
Definition fits (fieldnames : list string) (rowdict : row) : bool :=
  bool_decide (dom rowdict ∖ list_to_set fieldnames = (∅ : gset string)).

(** The line of the CSV file for a found character with formation
    letters. *)
Definition csv_line (result : fetched) : option (list cell) :=
  match result.1.2, result.2 with
  | Some hanja_id, Some info =>
      match Formation_Letter info with
      | Some letters =>
          Some [CStr result.1.1; CStr (Meaning info); CStr (Radical info);
                CInt (Stroke_Count info); CStr (Str.join ", " letters);
                CStr (Unicode info); CStr (Str.join ", " (Usage info));
                CStr hanja_id]
      | None => None
      end
  | _, _ => None
  end.

End WithCollaborators.

Global Arguments error : clear implicits.
Global Arguments answer : clear implicits.
Global Arguments run : clear implicits.

End MainScript.

(** Data for the examples of [main.py]: an exception of the collaborators
    is the name of its class. *)
Module MainDemo.
Import MainScript.

Definition school_info : hanja_info :=
  HanjaInfo "school" "木" 10 (Some ["木"; "交"]) "U+6821" ["education"; "grade 8"].

(** A character without formation letters. *)
Definition tree_info : hanja_info :=
  HanjaInfo "tree" "木" 4 None "U+6728" ["education"].

(** A browser that finds two characters, does not find a third one, and
    fails on every other. *)
Definition get_hanja_data : string -> string + fetched := fun hanja =>
  if decide (hanja = "校") then inr ("校", Some "a1b2", Some school_info)
  else if decide (hanja = "木") then inr ("木", Some "c3d4", Some tree_info)
  else if decide (hanja = "々") then inr ("々", None, None)
  else inl "NoSuchElementException".

Definition school_row : row :=
  list_to_map [("hanja", CStr "校"); ("meaning", CStr "school")].

End MainDemo.

(** ** Vocabulary of the further statements *)

Definition is_field_scoped (m : modifier) : bool :=
  match m with
  | FieldScoped _ _ => true
  | WholeCollection _ => false
  end.

(** What a modifier that does not raise makes of the heap and of the
    collection: a field-scoped modifier visits the dict at each position
    in turn (a dict that sits at two positions is visited twice), a
    function of the whole collection gives its heap and what it returns. *)
Definition effect_of (m : modifier) (s : heap * list nat) : heap * list nat :=
  match m with
  | FieldScoped func column => (foldl (visit func column) s.1 s.2, s.2)
  | WholeCollection f =>
      let c := ccall f s.1 s.2 in
      match returned c with
      | Ok data' => (heap_after c, data')
      | Raise _ => (heap_after c, list_after c)
      end
  end.

(** [modifiers] is [None] or a list of field-scoped modifiers. *)
Definition field_scoped_only (modifiers : option (list modifier)) : bool :=
  match modifiers with
  | None => true
  | Some ms => forallb is_field_scoped ms
  end.

(** [e'] has the keys of [e]. *)
Definition same_keys (e e' : record) : Prop := dom e' = dom e.

(** Pattern [p] at index [i] has a line that its regex does not match. *)
Definition unmatched (re_match : regex_engine) (lines : list string)
    (i : nat) (p : pattern) : bool :=
  match p, lines !! i with
  | PStr regex, Some line
  | PTuple [regex; _], Some line =>
      match re_match regex line with
      | Ok None => true
      | _ => false
      end
  | _, _ => false
  end.

(** * Properties *)

(** ** Sanity checks of the [str] methods and of the example engine *)

Example strip_ex : Str.strip ("  " +:+ Str.NL +:+ "ab c" +:+ Str.NL) = "ab c".
Proof. reflexivity. Qed.

Example strip_ideographic_space : Str.strip "　木　" = "木".
Proof. reflexivity. Qed.

Example split_ex1 : Str.split "a,b,,c" "," = Ok ["a"; "b"; ""; "c"].
Proof. reflexivity. Qed.

Example split_ex2 : Str.split "a--b---c--" "--" = Ok ["a"; "b"; "-c"; ""].
Proof. reflexivity. Qed.

Example split_ex3 : Str.split "" "," = Ok [""].
Proof. reflexivity. Qed.

Example split_no_delimiter : Str.split "a,b,c" ";" = Ok ["a,b,c"].
Proof. reflexivity. Qed.

Example input_path_ex :
  input_path "hanja.txt" = "data/input/hanja.txt"
  /\ input_path "data/input/hanja.txt" = "data/input/hanja.txt".
Proof. split; reflexivity. Qed.

Example re_match_ex :
  Demo.re_match "(?P<hanja>.+)" "木" = Ok (Some [("hanja", Some "木")])
  /\ Demo.re_match "(?P<hanja>.+)" "" = Ok None
  /\ Demo.re_match "meaning: (?P<meaning>.+)" "meaning: tree"
     = Ok (Some [("meaning", Some "tree")]).
Proof. repeat split; reflexivity. Qed.

(** A pair whose regex has no named group: [list(...keys())[0]] raises. *)
Example parse_pair_without_group :
  parse_data_by_regex Demo.re_match "words" [PTuple ["words"; ","]]
  = Raise IndexError.
Proof. reflexivity. Qed.

(** A pair with a single element: the unpacking raises. *)
Example parse_short_tuple :
  parse_data_by_regex Demo.re_match "words" [PTuple ["words"]]
  = Raise (ValueError_unpack 1).
Proof. reflexivity. Qed.

(** The two entries of the example file, as extracted. *)
Example process_txt_file_ex :
  process_txt_file Demo.re_match Demo.read_file "hanja.txt" Demo.patterns
    default_delimiter
  = Ok [ {["hanja" := VStr "木"; "meaning" := VStr "tree";
           "words" := VList ["木手"; "木馬"]]};
         {["hanja" := VStr "門"; "meaning" := VStr "gate";
           "words" := VList ["大門"; "窓門"]]} ].
Proof. vm_compute. reflexivity. Qed.

(** ** Loops that append *)

Section ForAppend.

Context {A B : Type} (f : A -> pyresult B).

Lemma for_append_app l acc0 acc :
  for_append f l (acc0 ++ acc) =
  match for_append f l acc with
  | Ok ys => Ok (acc0 ++ ys)
  | Raise e => Raise e
  end.
Proof.
  revert acc. induction l as [|x l IH]; intros acc; simpl; [done|].
  destruct (f x) as [y|e]; simpl; [|done].
  rewrite <- (assoc_L (++)). apply IH.
Qed.

Lemma for_append_cons x l :
  for_append f (x :: l) [] =
  match f x with
  | Ok y =>
      match for_append f l [] with
      | Ok ys => Ok (y :: ys)
      | Raise e => Raise e
      end
  | Raise e => Raise e
  end.
Proof.
  simpl. destruct (f x) as [y|e]; simpl; [|done].
  apply (for_append_app l [y] []).
Qed.

(** The loop returns exactly when every call does, with the results in
    the order of the list. *)
Lemma for_append_Ok l ys :
  for_append f l [] = Ok ys <-> Forall2 (fun x y => f x = Ok y) l ys.
Proof.
  revert ys. induction l as [|x l IH]; intros ys.
  - simpl. split.
    + intros [= <-]. constructor.
    + intros H. inversion H. done.
  - rewrite for_append_cons. split.
    + destruct (f x) as [y|e] eqn:Hx; [|done].
      destruct (for_append f l []) as [ys'|e] eqn:Hl; [|done].
      intros [= <-]. constructor; [done|]. by apply IH.
    + intros H. inversion H as [|? y ? ys' Hx Hl]; subst.
      rewrite Hx. apply IH in Hl. by rewrite Hl.
Qed.

(** It raises [e] exactly when some call raises [e] and the calls before
    it return. *)
Lemma for_append_Raise l e :
  for_append f l [] = Raise e <->
  exists pre x post, l = pre ++ x :: post /\
    Forall (fun x => is_Ok (f x) = true) pre /\ f x = Raise e.
Proof.
  induction l as [|x l IH].
  - simpl. split; [done|]. intros (pre & x & post & Hl & _). by destruct pre.
  - rewrite for_append_cons. split.
    + destruct (f x) as [y|e'] eqn:Hx.
      * destruct (for_append f l []) as [ys'|e'] eqn:Hl; [done|].
        intros [= ->].
        destruct (proj1 IH eq_refl) as (pre & x' & post & -> & Hpre & Hx').
        exists (x :: pre), x', post. split; [done|]. split; [|done].
        constructor; [by rewrite Hx|done].
      * intros [= ->]. exists [], x, l. by repeat split.
    + intros (pre & x' & post & Hl & Hpre & Hx').
      destruct pre as [|x0 pre]; simplify_eq/=.
      * by rewrite Hx'.
      * inversion Hpre as [|?? Hx0 Hpre']; subst.
        destruct (f x0); [|done].
        assert (for_append f (pre ++ x' :: post) [] = Raise e) as ->; [|done].
        apply IH. by exists pre, x', post.
Qed.

End ForAppend.

(** ** [merge_data_into_dict] *)

Section Merge.

Implicit Types (p s : record) (keys entry_dict : list string).

Lemma merge_fold_lookup p s keys (m : record) k :
  foldl (merge_field p s) m keys !! k =
  if decide (k ∈ keys) then Some (dict_get p k (dict_get s k VNone)) else m !! k.
Proof.
  revert m. induction keys as [|k' keys IH]; intros m.
  - simpl foldl. rewrite decide_False; [done|]. by intros ?%elem_of_nil.
  - simpl foldl. rewrite IH. unfold merge_field.
    destruct (decide (k ∈ keys)) as [Hin|Hnin].
    + rewrite decide_True; [done|]. by apply list_elem_of_further.
    + destruct (decide (k = k')) as [->|Hne].
      * rewrite lookup_insert_eq, decide_True; [done|]. apply list_elem_of_here.
      * rewrite lookup_insert_ne, decide_False; [done| |done].
        by intros [?|?]%elem_of_cons.
Qed.

Lemma merge_fold_dom p s keys (m : record) :
  dom (foldl (merge_field p s) m keys) = list_to_set keys ∪ dom m.
Proof.
  revert m. induction keys as [|k' keys IH]; intros m; simpl.
  - by rewrite (left_id_L ∅ (∪)).
  - rewrite IH. unfold merge_field. rewrite dom_insert_L.
    rewrite (assoc_L (∪)). f_equal. apply (comm_L (∪)).
Qed.

Lemma merge_entry_Ok keys p s merged :
  merge_entry keys (p, s) = Ok merged <->
  exists hanja, p !! "hanja" = Some hanja /\
    merged = foldl (merge_field p s) {["hanja" := hanja]} keys.
Proof.
  unfold merge_entry, getitem. destruct (p !! "hanja") as [h|]; simpl.
  - split; [intros [= <-]; eauto|]. by intros (? & [= <-] & ->).
  - split; [done|]. by intros (? & ? & _).
Qed.

Lemma merge_entry_Raise keys p s e :
  merge_entry keys (p, s) = Raise e <-> p !! "hanja" = None /\ e = KeyError "hanja".
Proof.
  unfold merge_entry, getitem. destruct (p !! "hanja") as [h|]; simpl.
  - split; [done|]. by intros [? _].
  - split; [by intros [= <-]|]. by intros [_ ->].
Qed.



Lemma zip_lookup_Some {X Y} (l : list X) (k : list Y) i x y :
  l !! i = Some x -> k !! i = Some y -> zip l k !! i = Some (x, y).
Proof. intros Hx Hy. rewrite lookup_zip_with, Hx. simpl. by rewrite Hy. Qed.

(** The merge example of the design document. *)
Example merge_ex :
  merge_data_into_dict ["meaning"; "radical"] [Demo.primary] [Demo.secondary]
  = Ok [Demo.merged].
Proof. vm_compute. reflexivity. Qed.

(** C1, as amended.  For every schema, every pair of positionally aligned
    primary and secondary records of a merge that returns, and every
    field name of the schema, the merged record holds for that field the
    primary record's value when the field is present in the primary
    record (whatever the value, [None] included), else the secondary
    record's value when present there, else [None]. *)
Theorem merge_present_primary_overrides entry_dict input_data scrapped_hanja
    result i p s key :
  merge_data_into_dict entry_dict input_data scrapped_hanja = Ok result ->
  input_data !! i = Some p ->
  scrapped_hanja !! i = Some s ->
  key ∈ entry_dict ->
  exists merged, result !! i = Some merged /\
    merged !! key =
      Some (match p !! key with
            | Some v => v
            | None => match s !! key with Some v => v | None => VNone end
            end).
Proof.
  unfold merge_data_into_dict. intros Hm Hp Hs Hkey.
  apply for_append_Ok in Hm.
  pose proof (zip_lookup_Some _ _ _ _ _ Hp Hs) as Hz.
  destruct (Forall2_lookup_l _ _ _ _ _ Hm Hz) as (merged & Hr & Hme).
  exists merged. split; [done|].
  apply merge_entry_Ok in Hme as (hanja & _ & ->).
  rewrite merge_fold_lookup, decide_True by done. done.
Qed.

(** C1 at the example of the design document: the primary "tree" wins
    over the secondary "wood". *)
Lemma merge_present_primary_overrides_witness :
  exists merged, [Demo.merged] !! 0 = Some merged /\
    merged !! "meaning" = Some (VStr "tree").
Proof.
  apply (merge_present_primary_overrides ["meaning"; "radical"]
           [Demo.primary] [Demo.secondary] [Demo.merged] 0
           Demo.primary Demo.secondary "meaning").
  - vm_compute. reflexivity.
  - reflexivity.
  - reflexivity.
  - apply list_elem_of_here.
Defined.

(** C1 as stated fails on a primary record that holds the field with the
    value [None] (a named group that took no part in the match): the
    merged field is [None], not the secondary record's "wood". *)
Lemma merge_null_primary_hides_secondary :
  merge_data_into_dict ["meaning"]
    [{["hanja" := VStr "木"; "meaning" := VNone]}]
    [{["meaning" := VStr "wood"]}]
  = Ok [{["hanja" := VStr "木"; "meaning" := VNone]}].
Proof. vm_compute. reflexivity. Qed.

(** C6.  Every record that [merge_data_into_dict] produces has exactly
    the keys of the schema and the identifying field "hanja". *)
Theorem merge_key_set entry_dict input_data scrapped_hanja result merged :
  merge_data_into_dict entry_dict input_data scrapped_hanja = Ok result ->
  merged ∈ result ->
  dom merged = list_to_set entry_dict ∪ {["hanja"]}.
Proof.
  unfold merge_data_into_dict. intros Hm Hin.
  apply for_append_Ok in Hm.
  apply list_elem_of_lookup in Hin as [i Hi].
  destruct (Forall2_lookup_r _ _ _ _ _ Hm Hi) as ([p s] & _ & Hme).
  apply merge_entry_Ok in Hme as (hanja & _ & ->).
  by rewrite merge_fold_dom, dom_singleton_L.
Qed.

Lemma merge_key_set_witness :
  dom Demo.merged = list_to_set ["meaning"; "radical"] ∪ {["hanja"]}.
Proof.
  apply (merge_key_set ["meaning"; "radical"] [Demo.primary] [Demo.secondary]
           [Demo.merged] Demo.merged).
  - vm_compute. reflexivity.
  - apply list_elem_of_here.
Defined.


(** Two primary records against one secondary record: one merged record. *)
Example merge_truncates :
  merge_data_into_dict ["meaning"; "radical"]
    [Demo.primary; Demo.entry_with "門" (VStr "gate")] [Demo.secondary]
  = Ok [Demo.merged].
Proof. vm_compute. reflexivity. Qed.

(** C8.  When the primary record of a pair that the merge processes has
    no "hanja", [merge_data_into_dict] raises [KeyError("hanja")] and
    returns no record; when the primary record of every such pair has it,
    the merge returns. *)
Theorem merge_requires_hanja entry_dict input_data scrapped_hanja :
  (Exists (fun pair => pair.1 !! "hanja" = None) (zip input_data scrapped_hanja) ->
   merge_data_into_dict entry_dict input_data scrapped_hanja = Raise (KeyError "hanja"))
  /\ (Forall (fun pair => is_Some (pair.1 !! "hanja")) (zip input_data scrapped_hanja) ->
      exists result,
        merge_data_into_dict entry_dict input_data scrapped_hanja = Ok result).
Proof.
  unfold merge_data_into_dict. split.
  - intros Hex.
    destruct (for_append (merge_entry entry_dict) (zip input_data scrapped_hanja) [])
      as [result|e] eqn:Hm.
    + apply for_append_Ok in Hm. exfalso.
      apply Exists_exists in Hex as ([p s] & Hin & Hnone).
      apply list_elem_of_lookup in Hin as [i Hi].
      destruct (Forall2_lookup_l _ _ _ _ _ Hm Hi) as (merged & _ & Hme).
      apply merge_entry_Ok in Hme as (h & Hh & _). simpl in Hnone. congruence.
    + apply for_append_Raise in Hm as (pre & [p s] & post & _ & _ & Hx).
      by apply merge_entry_Raise in Hx as [_ ->].
  - intros Hall.
    destruct (for_append (merge_entry entry_dict) (zip input_data scrapped_hanja) [])
      as [result|e] eqn:Hm; [eauto|]. exfalso.
    apply for_append_Raise in Hm as (pre & [p s] & post & Hl & _ & Hx).
    apply merge_entry_Raise in Hx as [Hnone _].
    rewrite Hl in Hall. apply Forall_app in Hall as [_ Hall].
    apply Forall_cons in Hall as [[h Hh] _]. simpl in Hh. congruence.
Qed.

(** C8 on a primary record without "hanja" after one that has it. *)
Lemma merge_requires_hanja_witness :
  merge_data_into_dict ["meaning"]
    [Demo.primary; {["meaning" := VStr "gate"]}] [Demo.secondary; ∅]
  = Raise (KeyError "hanja").
Proof.
  apply (proj1 (merge_requires_hanja ["meaning"]
                  [Demo.primary; {["meaning" := VStr "gate"]}] [Demo.secondary; ∅])).
  apply Exists_cons_tl, Exists_cons_hd. reflexivity.
Defined.

End Merge.

(** ** [apply_modifiers] *)

Section Modifiers.

Implicit Types (func : pyfunc value value) (st : loop_state) (e : record)
  (h : heap) (r : nat) (data : list nat).

(** [apply_modifiers(data, [])] and [apply_modifiers(data, None)] return
    [data] and log nothing. *)
Lemma apply_modifiers_identity h data :
  apply_modifiers h data (Some []) = MkM [] (Ok (h, data))
  /\ apply_modifiers h data None = MkM [] (Ok (h, data)).
Proof. by split. Qed.

Lemma apply_modifiers_loop h data ms :
  ms <> [] ->
  apply_modifiers h data (Some ms) = modifiers_loop ms (LoopState h data None).
Proof. by destruct ms. Qed.

(** A list of distinct dicts reads back as it was allocated. *)
Lemma deref_all_allocate (records : list record) :
  deref_all (allocate records).1 (allocate records).2 = records.
Proof.
  unfold allocate, deref_all, deref. simpl. apply list_eq. intros i.
  rewrite list_lookup_fmap.
  destruct (decide (i < length records)) as [Hi|Hi].
  - rewrite lookup_seq_lt by done. simpl.
    destruct (lookup_lt_is_Some_2 records i Hi) as [e He].
    rewrite He. f_equal.
    assert (map_seq 0 records !! i = Some e) as ->; [|done].
    apply lookup_map_seq_Some. split; [lia|]. by rewrite Nat.sub_0_r.
  - rewrite lookup_seq_ge by lia. simpl. symmetry. apply lookup_ge_None. lia.
Qed.

Lemma deref_insert h r r' e :
  deref (<[r := e]> h) r' = if decide (r = r') then e else deref h r'.
Proof.
  unfold deref. destruct (decide (r = r')) as [->|Hne].
  - by rewrite lookup_insert_eq.
  - by rewrite lookup_insert_ne.
Qed.

(** One iteration leaves in [r] the updated dict, and every other dict
    as it was. *)
Lemma deref_visit func column h r r' :
  deref (visit func column h r) r' =
  if decide (r = r') then updated func column (deref h r) else deref h r'.
Proof.
  unfold visit, updated.
  destruct (deref h r !! column) as [v|]; [destruct (fcall func v) as [v'|x]|].
  - apply deref_insert.
  - by destruct (decide (r = r')) as [->|].
  - by destruct (decide (r = r')) as [->|].
Qed.

Lemma modify_entries_app func column h l1 l2 entry0 :
  modify_entries func column h (l1 ++ l2) entry0 =
  match modify_entries func column h l1 entry0 with
  | (h1, entry1, None) => modify_entries func column h1 l2 entry1
  | (h1, entry1, Some x) => (h1, entry1, Some x)
  end.
Proof.
  revert h entry0. induction l1 as [|r l1 IH]; intros h entry0; [done|]. simpl.
  destruct (deref h r !! column) as [v|]; [|apply IH].
  destruct (fcall func v) as [v'|x]; [apply IH|done].
Qed.

(** The loop over distinct dicts on none of which [func] raises: every
    dict of the list is visited once, the others are not touched. *)
Lemma modify_entries_distinct func column h l entry0 :
  NoDup l ->
  Forall (fun r => raises_on func column (deref h r) = false) l ->
  exists entry1,
    modify_entries func column h l entry0 = (foldl (visit func column) h l, entry1, None)
    /\ forall r, deref (foldl (visit func column) h l) r =
                 if decide (r ∈ l) then updated func column (deref h r) else deref h r.
Proof.
  revert h entry0. induction l as [|r l IH]; intros h entry0 Hnd Hq.
  - exists entry0. split; [done|]. intros r.
    destruct (decide (r ∈ [])) as [Hin|_]; [|done]. by apply elem_of_nil in Hin.
  - apply NoDup_cons in Hnd as [Hr Hnd]. apply Forall_cons in Hq as [Hqr Hq].
    assert (Forall (fun r' => raises_on func column
                                (deref (visit func column h r) r') = false) l) as Hq'.
    { apply Forall_forall. intros r' Hr'. rewrite deref_visit.
      rewrite decide_False by (intros ->; done).
      rewrite Forall_forall in Hq. by apply Hq. }
    destruct (IH (visit func column h r) (Some r) Hnd Hq') as (entry1 & Hrun & Hread).
    exists entry1. split.
    + simpl. rewrite <- Hrun. unfold visit, raises_on in *.
      destruct (deref h r !! column) as [v|]; [|done].
      by destruct (fcall func v) as [v'|x].
    + intros r'. simpl. rewrite Hread, deref_visit.
      destruct (decide (r' ∈ l)) as [Hin|Hnin].
      * rewrite decide_False by (intros ->; done).
        rewrite decide_True; [done|]. by apply list_elem_of_further.
      * destruct (decide (r = r')) as [->|Hne].
        -- rewrite decide_True; [done|]. apply list_elem_of_here.
        -- rewrite decide_False; [done|]. by intros [?|?]%elem_of_cons.
Qed.

(** A field-scoped loop over distinct dicts that meets its first raising
    dict after [before]. *)
Lemma modify_entries_failure func column h before failing after entry0 :
  NoDup (before ++ failing :: after) ->
  Forall (fun r => raises_on func column (deref h r) = false) before ->
  raises_on func column (deref h failing) = true ->
  exists x,
    modify_entries func column h (before ++ failing :: after) entry0 =
      (foldl (visit func column) h before, Some failing, Some x)
    /\ forall r, deref (foldl (visit func column) h before) r =
                 if decide (r ∈ before) then updated func column (deref h r)
                 else deref h r.
Proof.
  intros Hnd Hq Hf.
  apply NoDup_app in Hnd as (Hnd & Hdisj & _).
  destruct (modify_entries_distinct func column h before entry0 Hnd Hq)
    as (entry1 & Hrun & Hread).
  assert (failing ∉ before) as Hfb.
  { intros Hin. apply (Hdisj failing Hin). apply list_elem_of_here. }
  assert (raises_on func column
            (deref (foldl (visit func column) h before) failing) = true) as Hf'.
  { by rewrite Hread, decide_False. }
  unfold raises_on in Hf'.
  destruct (deref (foldl (visit func column) h before) failing !! column)
    as [v|] eqn:Hv; [|done].
  destruct (fcall func v) as [v'|x] eqn:Hx; [done|].
  exists x. split; [|done].
  rewrite modify_entries_app, Hrun. simpl. by rewrite Hv, Hx.
Qed.

(** Once [entry] is bound it stays bound. *)
Lemma modify_entries_keeps_entry func column h data entry0 :
  is_Some entry0 -> is_Some (modify_entries func column h data entry0).1.2.
Proof.
  revert h entry0. induction data as [|r data IH]; intros h entry0 Hb; [done|].
  simpl. destruct (deref h r !! column) as [v|]; [|by apply IH].
  destruct (fcall func v) as [v'|x]; [by apply IH|by eexists].
Qed.

(** A field-scoped loop that raises has bound [entry]. *)
Lemma modify_entries_raise_binds func column h data entry0 :
  is_Some (modify_entries func column h data entry0).2 ->
  is_Some (modify_entries func column h data entry0).1.2.
Proof.
  revert h entry0. induction data as [|r data IH]; intros h entry0; simpl.
  - by intros [? [=]].
  - destruct (deref h r !! column) as [v|]; [|by apply IH].
    destruct (fcall func v) as [v'|x]; [by apply IH|by eexists].
Qed.

Lemma try_modifier_keeps_entry m st :
  is_Some (entry_of st) -> is_Some (entry_of (try_modifier m st).1).
Proof.
  destruct m as [f|func column]; simpl.
  - intros Hb. destruct (returned (ccall f (heap_of st) (data_of st))); exact Hb.
  - intros Hb.
    pose proof (modify_entries_keeps_entry func column (heap_of st) (data_of st)
                  (entry_of st) Hb) as Hk.
    by destruct (modify_entries _ _ _ _ _) as [[h' entry'] err].
Qed.

(** With [entry] bound, the handler cannot raise: the loop returns. *)
Lemma modifiers_loop_returns ms st :
  is_Some (entry_of st) -> exists final, outcome (modifiers_loop ms st) = Ok final.
Proof.
  revert st. induction ms as [|m ms IH]; intros st Hb; simpl; [by eexists|].
  pose proof (try_modifier_keeps_entry m st Hb) as Hb'.
  destruct (try_modifier m st) as [st' [x|]]; simpl in *; [|by apply IH].
  destruct (IH st' Hb') as [final Hfinal].
  unfold handle_error. destruct Hb' as [e ->].
  exists final. unfold mbind, M_bind. simpl. by rewrite Hfinal.
Qed.

Lemma quiet_run_loop pre ms st st' :
  quiet_run pre st = Some st' ->
  modifiers_loop (pre ++ ms) st = modifiers_loop ms st'.
Proof.
  revert st. induction pre as [|m pre IH]; intros st; simpl.
  - by intros [= ->].
  - destruct (try_modifier m st) as [st1 [x|]]; [done|]. apply IH.
Qed.

(** C2, as amended.  When a field-scoped modifier [(func, column)] is the
    first modifier to raise, the collection holds distinct records at
    that point, and [func] raises first on the record [failing], the
    pipeline logs two warnings, one naming the modifier and one showing
    [failing]; the records before [failing] stay updated, [failing] and
    every record after it are left as they were; the remaining modifiers
    run on that collection, the call returns whatever they do later, and
    this modifier drops no record: the list is the one it was given. *)
Theorem field_modifier_failure pre func column rest h data st
    before failing after :
  quiet_run pre (LoopState h data None) = Some st ->
  data_of st = before ++ failing :: after ->
  NoDup (data_of st) ->
  Forall (fun r => raises_on func column (deref (heap_of st) r) = false) before ->
  raises_on func column (deref (heap_of st) failing) = true ->
  let h' := foldl (visit func column) (heap_of st) before in
  let continued := modifiers_loop rest (LoopState h' (data_of st) (Some failing)) in
  apply_modifiers h data (Some (pre ++ FieldScoped func column :: rest)) =
    MkM (Warn (ErrorInModifier (ByRepr (fname func) column))
         :: Warn (ErrorInEntry (deref (heap_of st) failing)) :: trace continued)
        (outcome continued)
  /\ deref_all h' (data_of st) =
       (updated func column <$> deref_all (heap_of st) before)
       ++ deref_all (heap_of st) (failing :: after)
  /\ (exists final, outcome continued = Ok final)
  /\ (rest = [] -> outcome continued = Ok (h', data_of st)).
Proof.
  intros Hpre Hdata Hnd Hq Hf h' continued.
  rewrite Hdata in Hnd.
  destruct (modify_entries_failure func column (heap_of st) before failing after
              (entry_of st) Hnd Hq Hf) as (x & Hrun & Hread).
  fold h' in Hrun, Hread.
  assert ((failing ∉ before) /\ forall r, r ∈ after -> r ∉ before) as [Hfb Hab].
  { apply NoDup_app in Hnd as (_ & Hdisj & _). split.
    - intros Hin. apply (Hdisj failing Hin). apply list_elem_of_here.
    - intros r Hr Hin. apply (Hdisj r Hin). by apply list_elem_of_further. }
  split; [|split; [|split]].
  - rewrite apply_modifiers_loop by (by destruct pre).
    rewrite (quiet_run_loop _ _ _ _ Hpre).
    unfold modifiers_loop; fold modifiers_loop.
    unfold try_modifier. rewrite Hdata, Hrun, <- Hdata.
    fold continued. unfold handle_error, mbind, M_bind. cbn [entry_of heap_of].
    rewrite Hread. rewrite decide_False by done. simpl.
    by destruct (outcome continued).
  - rewrite Hdata. unfold deref_all. rewrite fmap_app, <- list_fmap_compose.
    f_equal.
    + apply list_fmap_ext. intros i r Hr. simpl.
      rewrite Hread, decide_True; [done|]. by eapply list_elem_of_lookup_2.
    + apply list_fmap_ext. intros i r Hr. rewrite Hread.
      apply list_elem_of_lookup_2 in Hr. rewrite decide_False; [done|].
      apply elem_of_cons in Hr as [->|Hr]; [done|by apply Hab].
  - apply modifiers_loop_returns. by eexists.
  - by intros ->.
Qed.

(** C2 on five records, the second of which makes [strip_text] raise:
    the call returns the five records, the first one updated in place. *)
Lemma field_modifier_failure_witness :
  outcome (apply_modifiers (allocate Demo.five).1 (allocate Demo.five).2
             (Some ([] ++ FieldScoped Demo.strip_text "meaning" :: [])))
  = Ok (foldl (visit Demo.strip_text "meaning") (allocate Demo.five).1 [0],
        (allocate Demo.five).2)
  /\ deref_all (foldl (visit Demo.strip_text "meaning") (allocate Demo.five).1 [0])
       (allocate Demo.five).2
     = [Demo.entry_with "木" (VStr "tree"); Demo.entry_with "門" VNone;
        Demo.entry_with "校" (VStr " school"); Demo.entry_with "六" (VStr " six");
        Demo.entry_with "母" (VStr " mother")].
Proof.
  destruct (field_modifier_failure [] Demo.strip_text "meaning" []
              (allocate Demo.five).1 (allocate Demo.five).2
              (LoopState (allocate Demo.five).1 (allocate Demo.five).2 None)
              [0] 1 [2; 3; 4] eq_refl eq_refl (NoDup_seq 0 5)
              ltac:(repeat constructor) eq_refl)
    as (Hrun & Hread & _ & Hout).
  split.
  - rewrite Hrun. exact (Hout eq_refl).
  - cbn [heap_of data_of] in Hread. rewrite Hread. vm_compute. reflexivity.
Defined.

(** C2 as stated fails on the same five records: [strip_text] raises on
    the second record only, yet the third, fourth and fifth records are
    returned as they were, although [strip_text] returns on each of them;
    only the first record is updated. *)
Lemma field_modifier_skips_later_records :
  apply_modifiers_to_records Demo.five (Some [FieldScoped Demo.strip_text "meaning"]) =
    MkM [Warn (ErrorInModifier (ByRepr "strip_text" "meaning"));
         Warn (ErrorInEntry (Demo.entry_with "門" VNone))]
        (Ok [Demo.entry_with "木" (VStr "tree"); Demo.entry_with "門" VNone;
             Demo.entry_with "校" (VStr " school"); Demo.entry_with "六" (VStr " six");
             Demo.entry_with "母" (VStr " mother")])
  /\ updated Demo.strip_text "meaning" <$> drop 2 Demo.five =
     [Demo.entry_with "校" (VStr "school"); Demo.entry_with "六" (VStr "six");
      Demo.entry_with "母" (VStr "mother")].
Proof. split; vm_compute; reflexivity. Qed.

(** A dict that sits at two positions is updated at both visits, and
    both positions show it: after [twice_first], [exclaim] runs twice on
    the one dict. *)
Example modifier_on_shared_dict :
  apply_modifiers_to_records [Demo.entry_with "木" (VStr "tree")]
    (Some [WholeCollection Demo.twice_first; FieldScoped Demo.exclaim "meaning"])
  = MkM [] (Ok [Demo.entry_with "木" (VStr "tree!!");
                Demo.entry_with "木" (VStr "tree!!")]).
Proof. vm_compute. reflexivity. Qed.

(** C9.  When the first modifier to raise is a function of the whole
    collection and no [for entry in data] iteration has bound [entry]
    before, the handler logs the warning that names the modifier and then
    raises [UnboundLocalError] (a [NameError]) on [entry]: the call
    raises, and the modifiers after it do not run. *)
Theorem whole_collection_failure_unbound_entry pre f post h data st x :
  quiet_run pre (LoopState h data None) = Some st ->
  entry_of st = None ->
  returned (ccall f (heap_of st) (data_of st)) = Raise x ->
  apply_modifiers h data (Some (pre ++ WholeCollection f :: post)) =
    MkM [Warn (ErrorInModifier (ByName (cname f)))]
        (Raise (UnboundLocalError "entry"))
  /\ is_NameError (UnboundLocalError "entry") = true.
Proof.
  intros Hpre Hentry Hf. split; [|done].
  rewrite apply_modifiers_loop by (by destruct pre).
  rewrite (quiet_run_loop _ _ _ _ Hpre). simpl. rewrite Hf.
  unfold handle_error. cbn [entry_of]. rewrite Hentry. reflexivity.
Qed.

(** C9 on a collection emptied by the first modifier: the field-scoped
    modifier iterates over nothing, [first_only] raises [IndexError], and
    the call ends in [UnboundLocalError]; the last modifier never runs. *)
Lemma whole_collection_failure_unbound_entry_witness :
  apply_modifiers (allocate Demo.five).1 (allocate Demo.five).2
    (Some ([WholeCollection Demo.drop_all; FieldScoped Demo.strip_text "meaning"]
           ++ WholeCollection Demo.first_only :: [WholeCollection Demo.drop_all])) =
    MkM [Warn (ErrorInModifier (ByName "first_only"))]
        (Raise (UnboundLocalError "entry")).
Proof.
  apply (proj1 (whole_collection_failure_unbound_entry
                  [WholeCollection Demo.drop_all; FieldScoped Demo.strip_text "meaning"]
                  Demo.first_only [WholeCollection Demo.drop_all]
                  (allocate Demo.five).1 (allocate Demo.five).2
                  (LoopState (allocate Demo.five).1 [] None) IndexError
                  eq_refl eq_refl eq_refl)).
Defined.

End Modifiers.

(** ** [parse_data_by_regex] and [process_txt_file] *)

Section ExtractionFacts.

Variable re_match : regex_engine.
Variable read_file : string -> pyresult string.

Lemma parse_loop_app lines i pre post result :
  parse_loop re_match lines i (pre ++ post) result =
  match parse_loop re_match lines i pre result with
  | Ok result' => parse_loop re_match lines (i + length pre) post result'
  | Raise e => Raise e
  end.
Proof.
  revert i result. induction pre as [|p pre IH]; intros i result; simpl.
  - by rewrite Nat.add_0_r.
  - destruct (parse_step re_match lines result i p) as [result'|e]; simpl; [|done].
    rewrite IH. by replace (S i + length pre) with (i + S (length pre)) by lia.
Qed.

Lemma parse_step_malformed lines result i p :
  malformed p = true ->
  parse_step re_match lines result i p = Raise (config_error i p).
Proof.
  destruct p as [regex|elems|]; simpl; [done| |done].
  intros Hlen%bool_decide_eq_true.
  destruct elems as [|a [|b [|c rest]]]; simpl in *; [lia..|done].
Qed.

(** Past the last line every pattern raises, and a [str] or a pair
    raises [IndexError] on [lines[i]]. *)
Lemma parse_step_no_line lines result i p :
  length lines <= i ->
  is_Raise (parse_step re_match lines result i p) = true
  /\ (well_shaped p = true ->
      parse_step re_match lines result i p = Raise IndexError).
Proof.
  intros Hi. assert (lines !! i = None) as Hnone by by apply lookup_ge_None.
  destruct p as [regex|elems|]; simpl.
  - unfold list_getitem. rewrite Hnone. done.
  - destruct elems as [|a [|b [|c rest]]]; simpl; try done.
    unfold list_getitem. rewrite Hnone. done.
  - done.
Qed.

Lemma parse_loop_short lines i patterns result :
  0 < length patterns ->
  length lines < i + length patterns ->
  is_Raise (parse_loop re_match lines i patterns result) = true.
Proof.
  revert i result.
  induction patterns as [|p ps IH]; intros i result Hpos Hlen; simpl in *.
  - lia.
  - destruct (decide (length lines <= i)) as [Hi|Hi].
    + destruct (parse_step_no_line lines result i p Hi) as [Hr _].
      by destruct (parse_step re_match lines result i p).
    + destruct (parse_step re_match lines result i p) as [result'|e]; [|done].
      simpl. apply IH; lia.
Qed.

(** C3, as amended.  For every chunk with fewer lines than there are
    patterns, [parse_data_by_regex] raises: no record is returned.  When
    the patterns that have a line apply without error and the first
    pattern without a line is a [str] or a pair, the exception is the
    [IndexError] of [lines[i]]. *)
Theorem parse_short_chunk_raises data patterns :
  length (lines_of data) < length patterns ->
  is_Raise (parse_data_by_regex re_match data patterns) = true
  /\ forall p result,
       patterns !! length (lines_of data) = Some p ->
       well_shaped p = true ->
       parse_loop re_match (lines_of data) 0
         (take (length (lines_of data)) patterns) ∅ = Ok result ->
       parse_data_by_regex re_match data patterns = Raise IndexError.
Proof.
  intros Hlen. split.
  - apply parse_loop_short; lia.
  - intros p result Hp Hshape Hpre. unfold parse_data_by_regex.
    rewrite <- (take_drop (length (lines_of data)) patterns) at 1.
    rewrite parse_loop_app, Hpre.
    rewrite (drop_S _ _ _ Hp). simpl.
    rewrite length_take_le by lia.
    destruct (parse_step_no_line (lines_of data) result (length (lines_of data)) p)
      as [_ ->]; done.
Qed.

(** C4, as amended.  A pattern at index [i] that is neither a [str] nor a
    tuple, or a tuple of more than two elements, makes
    [parse_data_by_regex] raise a [ValueError] that names [i] when its
    loop reaches index [i], after the patterns before it were applied to
    their lines; an exception of one of those comes first.  Nothing
    checks the patterns before the data is read: when the file cannot be
    read, [process_txt_file] raises the error of the read. *)
Theorem malformed_pattern_raises_mid_run data pre bad post file_path delimiter :
  malformed bad = true ->
  parse_data_by_regex re_match data (pre ++ bad :: post) =
    match parse_loop re_match (lines_of data) 0 pre ∅ with
    | Ok _ => Raise (config_error (length pre) bad)
    | Raise e => Raise e
    end
  /\ is_config_error_at (length pre) (config_error (length pre) bad) = true
  /\ forall e,
       read_file (input_path file_path) = Raise e ->
       process_txt_file re_match read_file file_path (pre ++ bad :: post) delimiter
       = Raise e.
Proof.
  intros Hbad. split; [|split].
  - unfold parse_data_by_regex. rewrite parse_loop_app.
    destruct (parse_loop re_match (lines_of data) 0 pre ∅) as [result|e]; [|done].
    simpl. by rewrite parse_step_malformed.
  - destruct bad as [regex|elems|]; simpl in *; [done|..]; by apply bool_decide_eq_true.
  - intros e He. unfold process_txt_file. by rewrite He.
Qed.

Lemma dict_update_other (result : record) gd key :
  key ∉ gd.*1 -> dict_update result gd !! key = result !! key.
Proof.
  unfold dict_update. revert result.
  induction gd as [|[k g] gd IH]; intros result Hnin; simpl; [done|].
  rewrite fmap_cons, not_elem_of_cons in Hnin. destruct Hnin as [Hne Hnin].
  rewrite IH by done. simpl in Hne. by rewrite lookup_insert_ne.
Qed.

Lemma applies_cleanly_step lines result i p :
  applies_cleanly re_match lines i p = true ->
  exists result', parse_step re_match lines result i p = Ok result'.
Proof.
  unfold applies_cleanly, parse_step, list_getitem.
  destruct p as [regex|elems|]; [| |done].
  - destruct (lines !! i) as [line|]; [|done]. simpl.
    destruct (re_match regex line) as [[gd|]|e]; simpl; [eauto..|done].
  - destruct elems as [|regex [|delimiter [|c rest]]]; try done.
    destruct (lines !! i) as [line|]; [|done]. simpl.
    destruct (re_match regex line) as [[gd|]|e]; simpl; [|eauto|done].
    destruct gd as [|[key [s|]] gd]; try done.
    intros [Hnin%bool_decide_eq_true Hd%bool_decide_eq_true]%andb_true_iff.
    simpl. unfold dict_update at 1. simpl foldl.
    fold (dict_update (<[key:=VStr s]> result) gd).
    rewrite dict_update_other, lookup_insert_eq by done. simpl.
    unfold Str.split. rewrite decide_False by done. simpl. eauto.
Qed.

Lemma patterns_apply_loop lines i patterns result :
  patterns_apply re_match lines i patterns = true ->
  exists result', parse_loop re_match lines i patterns result = Ok result'.
Proof.
  revert i result. induction patterns as [|p ps IH]; intros i result; simpl.
  - eauto.
  - intros [Hp Hps]%andb_true_iff.
    destruct (applies_cleanly_step lines result i p Hp) as [result' ->]. simpl.
    by apply IH.
Qed.

Lemma patterns_apply_lines lines i patterns :
  patterns_apply re_match lines i patterns = true ->
  i + length patterns <= length lines \/ patterns = [].
Proof.
  revert i. induction patterns as [|p ps IH]; intros i; simpl; [by right|].
  intros [Hp Hps]%andb_true_iff. left.
  assert (i < length lines) as Hi.
  { apply lookup_lt_is_Some. unfold applies_cleanly in Hp.
    destruct (lines !! i); [by eexists|]. by destruct p as [|[|?[|?[|]]]|]. }
  destruct (IH _ Hps) as [?| ->]; simpl; lia.
Qed.

(** C5, as amended.  When the file is read and split into [chunks], and
    every pattern applies to its line of every chunk without raising (so
    every chunk has at least as many lines as there are patterns),
    [process_txt_file] returns exactly one record per chunk, record [i]
    being the extraction of chunk [i]. *)
Theorem extraction_one_record_per_chunk file_path patterns delimiter content chunks :
  read_file (input_path file_path) = Ok content ->
  Str.split content delimiter = Ok chunks ->
  forallb (chunk_applies re_match patterns) chunks = true ->
  Forall (fun chunk => length patterns <= length (lines_of chunk)) chunks
  /\ exists records,
       process_txt_file re_match read_file file_path patterns delimiter = Ok records
       /\ length records = length chunks
       /\ forall i chunk, chunks !! i = Some chunk ->
            exists r, records !! i = Some r
                      /\ parse_data_by_regex re_match chunk patterns = Ok r.
Proof.
  intros Hread Hsplit Hall.
  apply Is_true_true in Hall. rewrite forallb_True in Hall. split.
  - eapply Forall_impl; [exact Hall|]. intros chunk Hc%Is_true_true.
    destruct (patterns_apply_lines _ _ _ Hc) as [?| ->]; simpl; lia.
  - unfold process_txt_file, process_chunks. rewrite Hread. simpl.
    rewrite Hsplit. simpl.
    destruct (for_append (fun chunk => parse_data_by_regex re_match chunk patterns)
                chunks []) as [records|e] eqn:Hrun.
    + apply for_append_Ok in Hrun. exists records. split; [done|].
      split; [symmetry; by eapply Forall2_length|].
      intros i chunk Hi.
      destruct (Forall2_lookup_l _ _ _ _ _ Hrun Hi) as (r & Hr & Hp). eauto.
    + exfalso. apply for_append_Raise in Hrun as (pre & chunk & post & -> & _ & Hx).
      apply Forall_app in Hall as [_ Hall]. apply Forall_cons in Hall as [Hc _].
      apply Is_true_true in Hc.
      destruct (patterns_apply_loop _ _ _ ∅ Hc) as [r Hr].
      unfold parse_data_by_regex in Hx. congruence.
Qed.

End ExtractionFacts.

(** C3 on a chunk of two lines against the three patterns of the
    examples. *)
Lemma parse_short_chunk_raises_witness :
  is_Raise (parse_data_by_regex Demo.re_match ("木" +:+ Str.NL +:+ "tree")
              Demo.patterns) = true.
Proof.
  apply (parse_short_chunk_raises Demo.re_match ("木" +:+ Str.NL +:+ "tree")
           Demo.patterns).
  vm_compute. lia.
Defined.

(** C3 as stated fails on that chunk: the third pattern has no line, and
    the extraction raises [IndexError] instead of skipping it. *)
Lemma parse_short_chunk_index_error :
  parse_data_by_regex Demo.re_match ("木" +:+ Str.NL +:+ "tree") Demo.patterns
  = Raise IndexError.
Proof. vm_compute. reflexivity. Qed.

(** C4 on a three-element tuple after two well-formed patterns. *)
Lemma malformed_pattern_raises_mid_run_witness :
  parse_data_by_regex Demo.re_match ("木" +:+ Str.NL +:+ "tree")
    ([PStr "(?P<hanja>.+)"; PStr "(?P<meaning>.+)"] ++ PTuple ["a"; "b"; "c"] :: [])
  = Raise (ValueError_tuple_len 2 3).
Proof.
  apply (proj1 (malformed_pattern_raises_mid_run Demo.re_match Demo.read_file
                  ("木" +:+ Str.NL +:+ "tree")
                  [PStr "(?P<hanja>.+)"; PStr "(?P<meaning>.+)"]
                  (PTuple ["a"; "b"; "c"]) [] "hanja.txt" default_delimiter
                  eq_refl)).
Defined.

(** C4 as stated fails: with one line only, the same three-element tuple
    at index 2 is never reached, and the call ends in the [IndexError] of
    the pattern at index 1; and on a file that cannot be read, a pattern
    of a wrong type is not reported at all. *)
Lemma malformed_pattern_not_validated_first :
  parse_data_by_regex Demo.re_match "木"
    [PStr "(?P<hanja>.+)"; PStr "(?P<meaning>.+)"; PTuple ["a"; "b"; "c"]]
  = Raise IndexError
  /\ process_txt_file Demo.re_match Demo.read_file "missing.txt" [POther]
       default_delimiter
     = Raise OSError.
Proof. split; vm_compute; reflexivity. Qed.

(** C5 on the example file: two chunks, two records. *)
Lemma extraction_one_record_per_chunk_witness :
  exists records,
    process_txt_file Demo.re_match Demo.read_file "hanja.txt" Demo.patterns
      default_delimiter = Ok records
    /\ length records = 2.
Proof.
  destruct (extraction_one_record_per_chunk Demo.re_match Demo.read_file
              "hanja.txt" Demo.patterns default_delimiter Demo.content
              ["木" +:+ Str.NL +:+ "tree" +:+ Str.NL +:+ "木手,木馬";
               "門" +:+ Str.NL +:+ "gate" +:+ Str.NL +:+ "大門,窓門" +:+ Str.NL])
    as (_ & records & Hrun & Hlen & _).
  - reflexivity.
  - vm_compute. reflexivity.
  - vm_compute. reflexivity.
  - exists records. split; [exact Hrun|exact Hlen].
Defined.

(** C5 as stated fails on a pair whose delimiter is the empty string:
    the file has one chunk of one line and there is one pattern, yet the
    extraction raises the [ValueError] of [str.split] and returns no
    record. *)
Lemma extraction_empty_delimiter_raises :
  length (lines_of "木手,木馬") = 1
  /\ process_txt_file Demo.re_match (fun _ => Ok "木手,木馬") "words.txt"
       [PTuple ["(?P<words>.+)"; ""]] default_delimiter
     = Raise ValueError_empty_separator.
Proof. split; vm_compute; reflexivity. Qed.

(** ** [scrape_data] and [process_hanja_txt] *)

Section EnrichmentFacts.

Variable scrape_hanja : list value -> list record.
Variable scrape_multiple_words : list (value * value) -> list record.

Lemma hanjas_Raise (input_data : list record) e :
  comprehension (fun entry : record => getitem entry "hanja") input_data = Raise e ->
  e = KeyError "hanja".
Proof.
  intros (pre & x & post & _ & _ & Hx)%for_append_Raise.
  unfold getitem in Hx. destruct (x !! "hanja"); by simplify_eq.
Qed.

Lemma hanjas_Ok (input_data : list record) hanjas :
  comprehension (fun entry : record => getitem entry "hanja") input_data = Ok hanjas ->
  Forall (fun e : record => is_Some (e !! "hanja")) input_data.
Proof.
  intros Hm%for_append_Ok. apply Forall_forall. intros e Hin.
  apply list_elem_of_lookup in Hin as [i Hi].
  destruct (Forall2_lookup_l _ _ _ _ _ Hm Hi) as (h & _ & Hh).
  unfold getitem in Hh. destruct (e !! "hanja"); [by eexists|done].
Qed.

(** What [scrape_data] does on a collection with a record that lacks
    "hanja" or "words", whatever the schema. *)
Lemma scrape_data_missing_key (input_data : list record) :
  Exists (fun e : record => e !! "hanja" = None \/ e !! "words" = None) input_data ->
  exists key tr,
    (forall entry_dict,
       scrape_data scrape_hanja scrape_multiple_words input_data entry_dict =
         MkM tr (Raise (KeyError key)))
    /\ ((key = "hanja" /\ tr = []) \/
        (key = "words" /\ exists hanjas, tr = [ScrapeHanja hanjas])).
Proof.
  intros Hex. unfold scrape_data.
  destruct (comprehension (fun entry : record => getitem entry "hanja") input_data)
    as [hanjas|e] eqn:Hh.
  - exists "words", [ScrapeHanja hanjas]. split; [|right; eauto].
    intros entry_dict. apply hanjas_Ok in Hh.
    destruct (comprehension _ input_data) as [pairs|e] eqn:Hw.
    + exfalso. apply for_append_Ok in Hw.
      apply Exists_exists in Hex as (x & Hin & Hx).
      apply list_elem_of_lookup in Hin as [i Hi].
      destruct (Forall2_lookup_l _ _ _ _ _ Hw Hi) as (hw & _ & Hhw).
      unfold getitem in Hhw.
      destruct Hx as [Hx|Hx]; rewrite Hx in Hhw; [done|].
      by destruct (x !! "hanja").
    + apply for_append_Raise in Hw as (pre & x & post & Hl & _ & Hx).
      assert (is_Some (x !! "hanja")) as [h Hxh].
      { rewrite Forall_forall in Hh. apply Hh. rewrite Hl.
        apply elem_of_app. right. apply list_elem_of_here. }
      unfold getitem in Hx. rewrite Hxh in Hx. simpl in Hx.
      destruct (x !! "words"); simplify_eq/=. reflexivity.
  - apply hanjas_Raise in Hh as ->. exists "hanja", []. split; [|left; eauto].
    reflexivity.
Qed.

(** C10.  When some extracted record lacks "hanja" or "words",
    [scrape_data] raises a [KeyError]: for "hanja" before any collaborator
    is called, for "words" after the call of [scrape_hanja] only.  In both
    cases [scrape_multiple_words] has not been called, so the merge, which
    comes after it, has not started; and [process_hanja_txt] ends in the
    same [KeyError] with the same trace. *)
Theorem enrichment_requires_hanja_and_words (input_data : list record) entry_dict :
  Exists (fun e : record => e !! "hanja" = None \/ e !! "words" = None) input_data ->
  exists key tr,
    scrape_data scrape_hanja scrape_multiple_words input_data entry_dict =
      MkM tr (Raise (KeyError key))
    /\ ((key = "hanja" /\ tr = []) \/
        (key = "words" /\ exists hanjas, tr = [ScrapeHanja hanjas]))
    /\ forall re_match read_file file_path patterns entry_list
              hanja_modifiers words_modifiers,
         process_txt_file re_match read_file file_path patterns default_delimiter
           = Ok input_data ->
         process_hanja_txt re_match read_file scrape_hanja scrape_multiple_words
           file_path patterns entry_list hanja_modifiers words_modifiers =
           MkM tr (Raise (KeyError key)).
Proof.
  intros Hex.
  destruct (scrape_data_missing_key input_data Hex) as (key & tr & Hscrape & Hcase).
  exists key, tr. split; [apply Hscrape|]. split; [done|].
  intros re_match read_file file_path patterns entry_list hm wm Hfile.
  unfold process_hanja_txt. unfold Str.split at 1. rewrite decide_False by done.
  unfold lift at 1 2. rewrite Hfile.
  unfold mbind at 1 2. unfold M_bind at 1 2. simpl.
  rewrite Hscrape. reflexivity.
Qed.

End EnrichmentFacts.

(** C10 on an entry extracted without its line of words: the hanja
    lookup is made, then the missing "words" ends the run. *)
Lemma enrichment_requires_hanja_and_words_witness :
  exists key tr,
    scrape_data Demo.scrape_hanja Demo.scrape_multiple_words
      [Demo.entry_with "木" (VStr "tree")] ["meaning"]
    = MkM tr (Raise (KeyError key)).
Proof.
  destruct (enrichment_requires_hanja_and_words Demo.scrape_hanja
              Demo.scrape_multiple_words [Demo.entry_with "木" (VStr "tree")]
              ["meaning"])
    as (key & tr & Hrun & _).
  - apply Exists_cons_hd. right. reflexivity.
  - exists key, tr. exact Hrun.
Defined.

Example scrape_data_missing_words :
  scrape_data Demo.scrape_hanja Demo.scrape_multiple_words
    [Demo.entry_with "木" (VStr "tree")] ["meaning"]
  = MkM [ScrapeHanja [VStr "木"]] (Raise (KeyError "words")).
Proof. vm_compute. reflexivity. Qed.

(** The whole pipeline on the example file, with collaborators that
    resolve nothing and one modifier on the merged records. *)
Example process_hanja_txt_ex :
  process_hanja_txt Demo.re_match Demo.read_file Demo.scrape_hanja
    Demo.scrape_multiple_words "hanja.txt" Demo.patterns "meaning|radical"
    (Some [FieldScoped Demo.strip_text "meaning"]) None
  = MkM [ScrapeHanja [VStr "木"; VStr "門"];
         ScrapeWords [(VStr "木", VList ["木手"; "木馬"]);
                      (VStr "門", VList ["大門"; "窓門"])]]
        (Ok ([ {["hanja" := VStr "木"; "meaning" := VStr "tree"; "radical" := VNone]};
               {["hanja" := VStr "門"; "meaning" := VStr "gate"; "radical" := VNone]} ],
             [∅; ∅])).
Proof. vm_compute. reflexivity. Qed.

(** * Further properties *)

(** ** [str.split] and [str.join] *)

Section SplitJoin.

Lemma string_app_cons x (a b : string) : String x a +:+ b = String x (a +:+ b).
Proof. reflexivity. Qed.

Lemma string_app_assoc (a b c : string) : (a +:+ b) +:+ c = a +:+ b +:+ c.
Proof.
  induction a as [|x a IH]; [done|]. by rewrite !string_app_cons, IH.
Qed.

Lemma string_app_nil_r (a : string) : a +:+ "" = a.
Proof. induction a as [|x a IH]; [done|]. by rewrite string_app_cons, IH. Qed.

Lemma string_app_length (a b : string) :
  String.length (a +:+ b) = String.length a + String.length b.
Proof.
  induction a as [|x a IH]; [done|]. rewrite string_app_cons. simpl. by rewrite IH.
Qed.

Lemma prefix_app sep s :
  String.prefix sep s = true -> exists rest, s = sep +:+ rest.
Proof.
  revert s. induction sep as [|a sep IH]; intros s.
  - intros _. by exists s.
  - destruct s as [|b s]; simpl; [done|].
    destruct (ascii_dec a b) as [->|]; [|done].
    intros [rest ->]%IH. exists rest. by rewrite string_app_cons.
Qed.

(** Bytes still to pass over are passed over. *)
Lemma split_go_skip sep pre rest cur :
  Str.split_go sep (pre +:+ rest) (String.length pre) cur
  = Str.split_go sep rest 0 cur.
Proof.
  induction pre as [|a pre IH]; [by destruct rest|].
  rewrite string_app_cons. simpl. apply IH.
Qed.

Lemma split_go_nonempty sep s skip cur : Str.split_go sep s skip cur <> [].
Proof.
  revert skip cur. induction s as [|a s IH]; intros skip cur; [done|].
  cbn [Str.split_go]. destruct skip; [|apply IH].
  destruct (String.prefix sep (String a s)); [done|apply IH].
Qed.

Lemma join_cons sep p ps :
  ps <> [] -> Str.join sep (p :: ps) = p +:+ sep +:+ Str.join sep ps.
Proof. by destruct ps. Qed.

Lemma join_split_go sep n s cur :
  sep <> "" -> String.length s <= n ->
  Str.join sep (Str.split_go sep s 0 cur) = cur +:+ s.
Proof.
  intros Hsep. revert s cur. induction n as [|n IH]; intros s cur Hlen.
  - destruct s; simpl in *; [|lia]. by rewrite string_app_nil_r.
  - destruct s as [|a s]; [simpl; by rewrite string_app_nil_r|].
    simpl in Hlen. cbn [Str.split_go].
    destruct (String.prefix sep (String a s)) eqn:Hp.
    + apply prefix_app in Hp as [rest Hrest].
      destruct sep as [|b sep]; [done|]. rewrite string_app_cons in Hrest.
      injection Hrest as -> ->.
      rewrite join_cons by apply split_go_nonempty.
      replace (String.length (String b sep) - 1) with (String.length sep)
        by (simpl; lia).
      rewrite split_go_skip.
      rewrite IH.
      * by rewrite !string_app_cons.
      * rewrite string_app_length in Hlen. lia.
    + rewrite IH by lia. rewrite string_app_assoc. reflexivity.
Qed.

(** X1.  The pieces of [s.split(sep)], joined by [sep], give back [s]:
    the split into chunks loses no text; and there is always at least
    one piece. *)
Theorem split_join_round_trip s sep parts :
  Str.split s sep = Ok parts ->
  Str.join sep parts = s /\ parts <> [].
Proof.
  unfold Str.split. destruct (decide (sep = "")) as [|Hsep]; [done|].
  intros [= <-]. split; [|apply split_go_nonempty].
  by rewrite (join_split_go sep (String.length s)).
Qed.

(** X1 on a string with three occurrences of its separator. *)
Lemma split_join_round_trip_witness :
  Str.join "--" ["a"; "b"; "-c"; ""] = "a--b---c--" /\ ["a"; "b"; "-c"; ""] <> [].
Proof. apply (split_join_round_trip "a--b---c--" "--"). reflexivity. Defined.

End SplitJoin.

(** ** More on extraction *)

Section ExtractionMore.

Variable re_match : regex_engine.
Variable read_file : string -> pyresult string.

Lemma parse_step_ext lines lines' result i p :
  lines !! i = lines' !! i ->
  parse_step re_match lines result i p = parse_step re_match lines' result i p.
Proof.
  intros Heq. unfold parse_step, list_getitem. rewrite Heq. reflexivity.
Qed.

Lemma parse_loop_ext lines lines' i patterns result :
  (forall j, i <= j < i + length patterns -> lines !! j = lines' !! j) ->
  parse_loop re_match lines i patterns result
  = parse_loop re_match lines' i patterns result.
Proof.
  revert i result. induction patterns as [|p ps IH]; intros i result Heq; [done|].
  simpl in *. rewrite (parse_step_ext lines lines') by (apply Heq; lia).
  destruct (parse_step re_match lines' result i p) as [result'|e]; [|done].
  simpl. apply IH. intros j Hj. apply Heq. lia.
Qed.

(** X3.  The lines of a chunk past the number of patterns are not
    read: two chunks whose lines agree up to that number have the same
    extraction, exception included. *)
Theorem parse_ignores_extra_lines data1 data2 patterns :
  take (length patterns) (lines_of data1) = take (length patterns) (lines_of data2) ->
  parse_data_by_regex re_match data1 patterns
  = parse_data_by_regex re_match data2 patterns.
Proof.
  intros Heq. unfold parse_data_by_regex. apply parse_loop_ext.
  intros j [_ Hj]. simpl in Hj.
  rewrite <- (lookup_take_lt (lines_of data1) (length patterns) j) by done.
  rewrite <- (lookup_take_lt (lines_of data2) (length patterns) j) by done.
  by rewrite Heq.
Qed.

Lemma dict_update_lookup (result : record) (gd : groupdict) k g :
  NoDup gd.*1 -> (k, g) ∈ gd ->
  dict_update result gd !! k = Some (value_of_group g).
Proof.
  revert result. induction gd as [|[k0 g0] gd IH]; intros result Hnd Hin.
  - by apply elem_of_nil in Hin.
  - rewrite fmap_cons in Hnd. apply NoDup_cons in Hnd as [Hk0 Hnd].
    change (dict_update result ((k0, g0) :: gd))
      with (dict_update (<[k0 := value_of_group g0]> result) gd).
    apply elem_of_cons in Hin as [[= -> ->]|Hin].
    + rewrite dict_update_other by done. apply lookup_insert_eq.
    + by apply IH.
Qed.

Lemma parse_snoc data pre p result :
  parse_data_by_regex re_match data pre = Ok result ->
  parse_data_by_regex re_match data (pre ++ [p])
  = parse_step re_match (lines_of data) result (length pre) p.
Proof.
  unfold parse_data_by_regex. intros Hpre. rewrite parse_loop_app, Hpre. simpl.
  by destruct (parse_step _ _ _ _ _).
Qed.

(** X4.  A [str] pattern that matches overwrites the fields of the same
    name that earlier patterns set, with every named group of its match
    (a group that took no part gives [None]), and keeps every other
    field. *)
Theorem parse_later_pattern_overrides data pre regex line gd result :
  parse_data_by_regex re_match data pre = Ok result ->
  lines_of data !! length pre = Some line ->
  re_match regex line = Ok (Some gd) ->
  NoDup gd.*1 ->
  exists result',
    parse_data_by_regex re_match data (pre ++ [PStr regex]) = Ok result'
    /\ (forall k g, (k, g) ∈ gd -> result' !! k = Some (value_of_group g))
    /\ (forall k, k ∉ gd.*1 -> result' !! k = result !! k).
Proof.
  intros Hpre Hline Hm Hnd. rewrite (parse_snoc _ _ _ _ Hpre).
  unfold parse_step, list_getitem. rewrite Hline. simpl. rewrite Hm. simpl.
  eexists. split; [done|]. split.
  - intros k g Hin. by apply dict_update_lookup.
  - intros k Hk. by apply dict_update_other.
Qed.

(** X5.  A pair that matches splits the value of the first named group
    only: that field becomes the list of the pieces, the other named
    groups of the match stay as captured, and every other field is kept. *)
Theorem parse_pair_splits_first_group data pre regex delimiter line k s gd result :
  parse_data_by_regex re_match data pre = Ok result ->
  lines_of data !! length pre = Some line ->
  re_match regex line = Ok (Some ((k, Some s) :: gd)) ->
  NoDup (k :: gd.*1) ->
  delimiter <> "" ->
  exists result' parts,
    parse_data_by_regex re_match data (pre ++ [PTuple [regex; delimiter]]) = Ok result'
    /\ result' !! k = Some (VList parts)
    /\ Str.split s delimiter = Ok parts
    /\ (forall k' g', (k', g') ∈ gd -> result' !! k' = Some (value_of_group g'))
    /\ (forall k', k' <> k -> k' ∉ gd.*1 -> result' !! k' = result !! k').
Proof.
  intros Hpre Hline Hm Hnd Hd. apply NoDup_cons in Hnd as [Hk Hnd].
  rewrite (parse_snoc _ _ _ _ Hpre).
  unfold parse_step, list_getitem. rewrite Hline. simpl. rewrite Hm. simpl.
  change (dict_update result ((k, Some s) :: gd))
    with (dict_update (<[k := VStr s]> result) gd).
  rewrite dict_update_other, lookup_insert_eq by done. simpl.
  unfold Str.split. rewrite decide_False by done. simpl.
  eexists _, _. split; [done|]. split; [apply lookup_insert_eq|]. split; [done|].
  split.
  - intros k' g' Hin.
    assert (k' <> k) as Hne.
    { intros ->. apply Hk. apply list_elem_of_fmap. by exists (k, g'). }
    rewrite lookup_insert_ne by done. by apply dict_update_lookup.
  - intros k' Hne Hk'. rewrite lookup_insert_ne by done.
    rewrite dict_update_other by done. by rewrite lookup_insert_ne.
Qed.

Lemma parse_loop_unmatched lines i patterns result :
  (forall j p, patterns !! j = Some p -> unmatched re_match lines (i + j) p = true) ->
  parse_loop re_match lines i patterns result = Ok result.
Proof.
  revert i. induction patterns as [|p ps IH]; intros i Hall; [done|].
  simpl. pose proof (Hall 0 p eq_refl) as Hp. rewrite Nat.add_0_r in Hp.
  assert (parse_step re_match lines result i p = Ok result) as ->.
  { unfold unmatched in Hp. unfold parse_step, list_getitem.
    destruct p as [regex|[|regex [|d [|]]]|]; try done;
      destruct (lines !! i) as [line|]; try done; simpl;
      by destruct (re_match regex line) as [[gd|]|]. }
  simpl. apply IH. intros j p' Hj.
  replace (S i + j) with (i + S j) by lia. by apply Hall.
Qed.

(** X6.  Lines that their patterns do not match are no error: when none
    of the patterns matches its line, the extraction returns the empty
    record. *)
Theorem parse_unmatched_lines data patterns :
  (forall i p, patterns !! i = Some p ->
               unmatched re_match (lines_of data) i p = true) ->
  parse_data_by_regex re_match data patterns = Ok ∅.
Proof. intros Hall. by apply parse_loop_unmatched. Qed.

(** X2.  Whenever [process_txt_file] returns, it returns the extraction
    of each chunk of the file, in order, and at least one record: an
    empty file is one empty chunk, never an empty list. *)
Theorem process_txt_file_one_record_at_least file_path patterns delimiter records :
  process_txt_file re_match read_file file_path patterns delimiter = Ok records ->
  records <> []
  /\ exists content chunks,
       read_file (input_path file_path) = Ok content
       /\ Str.split content delimiter = Ok chunks
       /\ Forall2 (fun chunk r => parse_data_by_regex re_match chunk patterns = Ok r)
            chunks records.
Proof.
  unfold process_txt_file, process_chunks.
  destruct (read_file (input_path file_path)) as [content|e] eqn:Hread; [|done].
  simpl. destruct (Str.split content delimiter) as [chunks|e] eqn:Hsplit; [|done].
  simpl. intros Hrun%for_append_Ok. split.
  - intros ->. apply Forall2_nil_inv_r in Hrun as ->.
    unfold Str.split in Hsplit. destruct (decide (delimiter = "")); [done|].
    injection Hsplit as Hs. by apply split_go_nonempty in Hs.
  - by exists content, chunks.
Qed.

End ExtractionMore.

(** X2 on an empty file. *)
Lemma process_txt_file_one_record_at_least_witness :
  process_txt_file Demo.re_match (fun _ => Ok "") "empty.txt"
    [PStr "(?P<hanja>.+)"] default_delimiter = Ok [∅]
  /\ [(∅ : record)] <> [].
Proof.
  split; [reflexivity|].
  apply (proj1 (process_txt_file_one_record_at_least Demo.re_match
                  (fun _ => Ok "") "empty.txt" [PStr "(?P<hanja>.+)"]
                  default_delimiter [∅] eq_refl)).
Defined.

(** X3 on a chunk and the same chunk with a third line. *)
Lemma parse_ignores_extra_lines_witness :
  parse_data_by_regex Demo.re_match ("木" +:+ Str.NL +:+ "tree")
    [PStr "(?P<hanja>.+)"; PStr "(?P<meaning>.+)"]
  = parse_data_by_regex Demo.re_match
      ("木" +:+ Str.NL +:+ "tree" +:+ Str.NL +:+ "木手,木馬")
      [PStr "(?P<hanja>.+)"; PStr "(?P<meaning>.+)"].
Proof.
  apply (parse_ignores_extra_lines Demo.re_match). reflexivity.
Defined.

(** X4 on two patterns that both name their group "hanja". *)
Lemma parse_later_pattern_overrides_witness :
  exists result',
    parse_data_by_regex Demo.re_match ("木" +:+ Str.NL +:+ "門")
      ([PStr "(?P<hanja>.+)"] ++ [PStr "(?P<hanja>.+)"]) = Ok result'
    /\ result' !! "hanja" = Some (VStr "門").
Proof.
  destruct (parse_later_pattern_overrides Demo.re_match ("木" +:+ Str.NL +:+ "門")
              [PStr "(?P<hanja>.+)"] "(?P<hanja>.+)" "門" [("hanja", Some "門")]
              {["hanja" := VStr "木"]})
    as (result' & Hrun & Hnew & _).
  - reflexivity.
  - reflexivity.
  - reflexivity.
  - repeat constructor. by intros ?%elem_of_nil.
  - exists result'. split; [exact Hrun|].
    apply (Hnew "hanja" (Some "門")). apply list_elem_of_here.
Defined.

(** X5 on a line of two words. *)
Lemma parse_pair_splits_first_group_witness :
  exists result',
    parse_data_by_regex Demo.re_match "木手,木馬"
      ([] ++ [PTuple ["(?P<words>.+)"; ","]]) = Ok result'
    /\ result' !! "words" = Some (VList ["木手"; "木馬"]).
Proof.
  destruct (parse_pair_splits_first_group Demo.re_match "木手,木馬" []
              "(?P<words>.+)" "," "木手,木馬" "words" "木手,木馬" [] ∅)
    as (result' & parts & Hrun & Hwords & Hsplit & _).
  - reflexivity.
  - reflexivity.
  - reflexivity.
  - repeat constructor. by intros ?%elem_of_nil.
  - done.
  - exists result'. split; [exact Hrun|].
    injection Hsplit as <-. exact Hwords.
Defined.

(** X6 on a line that lacks the prefix of its pattern. *)
Lemma parse_unmatched_lines_witness :
  parse_data_by_regex Demo.re_match "tree" [PStr "hanja: (?P<hanja>.+)"] = Ok ∅.
Proof.
  apply (parse_unmatched_lines Demo.re_match).
  intros [|i] p; [by intros [= <-]|done].
Defined.

(** ** More on [merge_data_into_dict] *)

Section MergeMore.

Implicit Types (p s : record) (keys entry_dict : list string).

(** X7.  The "hanja" of a merged record is the primary record's, also
    when the schema lists "hanja" and the secondary record has one. *)
Theorem merge_hanja_from_primary entry_dict input_data scrapped_hanja result i p s :
  merge_data_into_dict entry_dict input_data scrapped_hanja = Ok result ->
  input_data !! i = Some p ->
  scrapped_hanja !! i = Some s ->
  exists merged hanja,
    result !! i = Some merged
    /\ p !! "hanja" = Some hanja
    /\ merged !! "hanja" = Some hanja.
Proof.
  unfold merge_data_into_dict. intros Hm%for_append_Ok Hp Hs.
  pose proof (zip_lookup_Some _ _ _ _ _ Hp Hs) as Hz.
  destruct (Forall2_lookup_l _ _ _ _ _ Hm Hz) as (merged & Hr & Hme).
  apply merge_entry_Ok in Hme as (hanja & Hh & ->).
  eexists _, hanja. split; [done|]. split; [done|].
  rewrite merge_fold_lookup. case_decide.
  - unfold dict_get. by rewrite Hh.
  - apply lookup_singleton_eq.
Qed.

Lemma for_append_ext {A B} (f g : A -> pyresult B) l acc :
  (forall x, x ∈ l -> f x = g x) -> for_append f l acc = for_append g l acc.
Proof.
  revert acc. induction l as [|x l IH]; intros acc Hfg; [done|]. simpl.
  rewrite (Hfg x) by apply list_elem_of_here.
  destruct (g x); simpl; [|done]. apply IH. intros y Hy. apply Hfg.
  by apply list_elem_of_further.
Qed.

(** X8.  The merge depends on the schema as a set: the order of its
    keys and their repetition change nothing. *)
Theorem merge_schema_as_set keys1 keys2 input_data scrapped_hanja :
  (forall k, k ∈ keys1 <-> k ∈ keys2) ->
  merge_data_into_dict keys1 input_data scrapped_hanja
  = merge_data_into_dict keys2 input_data scrapped_hanja.
Proof.
  intros Hkeys. unfold merge_data_into_dict. apply for_append_ext.
  intros [p s] _. unfold merge_entry. destruct (getitem p "hanja") as [h|e]; [|done].
  simpl. f_equal. apply map_eq. intros k. rewrite !merge_fold_lookup.
  destruct (decide (k ∈ keys1)) as [H1|H1], (decide (k ∈ keys2)) as [H2|H2];
    try done; by apply Hkeys in H1 || by apply Hkeys in H2.
Qed.

End MergeMore.

(** X7 on a schema that lists "hanja" and a secondary record with
    another one. *)
Lemma merge_hanja_from_primary_witness :
  exists merged hanja,
    [({["hanja" := VStr "木"]} : record)] !! 0 = Some merged
    /\ Demo.primary !! "hanja" = Some hanja
    /\ merged !! "hanja" = Some hanja.
Proof.
  apply (merge_hanja_from_primary ["hanja"] [Demo.primary]
           [{["hanja" := VStr "門"]}] [{["hanja" := VStr "木"]}] 0
           Demo.primary {["hanja" := VStr "門"]}).
  - vm_compute. reflexivity.
  - reflexivity.
  - reflexivity.
Defined.

(** X8 on a schema and the same keys reversed, one of them twice. *)
Lemma merge_schema_as_set_witness :
  merge_data_into_dict ["meaning"; "radical"] [Demo.primary] [Demo.secondary]
  = merge_data_into_dict ["radical"; "meaning"; "radical"]
      [Demo.primary] [Demo.secondary].
Proof.
  apply (merge_schema_as_set ["meaning"; "radical"] ["radical"; "meaning"; "radical"]).
  intros k. rewrite !elem_of_cons, !elem_of_nil. tauto.
Defined.

(** ** More on [apply_modifiers] *)

Section ModifiersMore.

Implicit Types (func : pyfunc value value) (st : loop_state) (e : record)
  (h : heap) (r : nat) (data : list nat).

(** One iteration of the field-scoped loop gives no dict a key and takes
    none away. *)
Lemma visit_keys func column h r r' :
  dom (deref (visit func column h r) r') = dom (deref h r').
Proof.
  rewrite deref_visit. destruct (decide (r = r')) as [->|]; [|done].
  unfold updated. destruct (deref h r' !! column) as [v|] eqn:Hv; [|done].
  destruct (fcall func v) as [v'|x]; [|done].
  rewrite dom_insert_L. apply (elem_of_dom_2 (D:=gset string)) in Hv.
  apply subseteq_union_1_L. by apply singleton_subseteq_l.
Qed.

Lemma modify_entries_keys func column h data entry0 r' :
  dom (deref (modify_entries func column h data entry0).1.1 r') = dom (deref h r').
Proof.
  revert h entry0. induction data as [|r data IH]; intros h entry0; [done|].
  simpl. pose proof (visit_keys func column h r r') as Hv. unfold visit in Hv.
  destruct (deref h r !! column) as [v|]; [|apply IH].
  destruct (fcall func v) as [v'|x]; [|done]. by rewrite IH.
Qed.

(** A field-scoped loop that does not raise has visited the dict at each
    position in turn. *)
Lemma modify_entries_quiet func column h data entry0 :
  (modify_entries func column h data entry0).2 = None ->
  (modify_entries func column h data entry0).1.1 = foldl (visit func column) h data.
Proof.
  revert h entry0. induction data as [|r data IH]; intros h entry0; [done|].
  simpl. unfold visit at 2.
  destruct (deref h r !! column) as [v|]; [|apply IH].
  destruct (fcall func v) as [v'|x]; [apply IH|done].
Qed.

Lemma field_scoped_loop ms st :
  Forall (fun m => is_field_scoped m = true) ms ->
  exists h',
    outcome (modifiers_loop ms st) = Ok (h', data_of st)
    /\ forall r, dom (deref h' r) = dom (deref (heap_of st) r).
Proof.
  revert st. induction ms as [|m ms IH]; intros st Hfs.
  - simpl. by eexists.
  - apply Forall_cons in Hfs as [Hm Hfs]. destruct m as [f|func column]; [done|].
    simpl.
    pose proof (modify_entries_keys func column (heap_of st) (data_of st)
                  (entry_of st)) as Hk.
    pose proof (modify_entries_raise_binds func column (heap_of st) (data_of st)
                  (entry_of st)) as Hb.
    destruct (modify_entries func column (heap_of st) (data_of st) (entry_of st))
      as [[h1 entry1] err]. simpl in *.
    destruct (IH (LoopState h1 (data_of st) entry1) Hfs) as (h' & Hfinal & Hk').
    simpl in *. exists h'. split; [|intros r; by rewrite Hk', Hk].
    destruct err as [x|]; [|done].
    destruct Hb as [r' ->]; [by eexists|].
    unfold handle_error. unfold mbind, M_bind. simpl. by rewrite Hfinal.
Qed.

(** X9.  A pipeline of field-scoped modifiers only never raises,
    whichever of their functions raise: it returns the list it was
    given, hence as many records as it was given, and every dict has the
    keys it had. *)
Theorem field_scoped_pipeline_returns h data ms :
  Forall (fun m => is_field_scoped m = true) ms ->
  exists h',
    outcome (apply_modifiers h data (Some ms)) = Ok (h', data)
    /\ (forall r, dom (deref h' r) = dom (deref h r))
    /\ length (deref_all h' data) = length (deref_all h data)
    /\ forall i e e',
         deref_all h data !! i = Some e -> deref_all h' data !! i = Some e' ->
         dom e' = dom e.
Proof.
  intros Hfs.
  assert (exists h', outcome (apply_modifiers h data (Some ms)) = Ok (h', data)
                     /\ forall r, dom (deref h' r) = dom (deref h r))
    as (h' & Hout & Hk).
  { destruct ms as [|m ms]; [by exists h|].
    apply (field_scoped_loop (m :: ms) (LoopState h data None) Hfs). }
  exists h'. split; [done|]. split; [done|].
  split; [unfold deref_all; by rewrite !length_fmap|].
  intros i e e'. unfold deref_all. rewrite !list_lookup_fmap.
  destruct (data !! i) as [r|]; [|done]. simpl. intros [= <-] [= <-]. apply Hk.
Qed.

(** X10.  When a function of the whole collection raises after [entry]
    was bound by an earlier field-scoped modifier, [data] keeps naming
    the list the function was called on, two warnings are logged, the
    second showing the dict that the earlier loop visited last as it is
    after the failed call, and the remaining modifiers run: the call
    returns. *)
Theorem whole_collection_failure_bound_entry pre f post h data st r x :
  quiet_run pre (LoopState h data None) = Some st ->
  entry_of st = Some r ->
  returned (ccall f (heap_of st) (data_of st)) = Raise x ->
  let c := ccall f (heap_of st) (data_of st) in
  let continued :=
    modifiers_loop post (LoopState (heap_after c) (list_after c) (Some r)) in
  apply_modifiers h data (Some (pre ++ WholeCollection f :: post)) =
    MkM (Warn (ErrorInModifier (ByName (cname f)))
         :: Warn (ErrorInEntry (deref (heap_after c) r)) :: trace continued)
        (outcome continued)
  /\ exists final, outcome continued = Ok final.
Proof.
  intros Hpre Hentry Hf c continued. split.
  - rewrite apply_modifiers_loop by (by destruct pre).
    rewrite (quiet_run_loop _ _ _ _ Hpre). subst continued c. simpl.
    rewrite Hf. unfold handle_error. cbn [entry_of heap_of]. rewrite Hentry.
    unfold mbind, M_bind. simpl. by destruct (outcome (modifiers_loop post _)).
  - apply modifiers_loop_returns. by eexists.
Qed.

Lemma try_modifier_quiet m st st' :
  try_modifier m st = (st', None) ->
  (heap_of st', data_of st') = effect_of m (heap_of st, data_of st).
Proof.
  destruct m as [f|func column]; simpl.
  - destruct (returned (ccall f (heap_of st) (data_of st))) as [data'|x]; [|done].
    by intros [= <-].
  - pose proof (modify_entries_quiet func column (heap_of st) (data_of st)
                  (entry_of st)) as Hq.
    destruct (modify_entries func column (heap_of st) (data_of st) (entry_of st))
      as [[h1 entry1] err]. simpl in *.
    intros [= <- ->]. simpl. by rewrite Hq.
Qed.

Lemma quiet_run_effect ms st st' :
  quiet_run ms st = Some st' ->
  (heap_of st', data_of st')
  = foldl (fun s m => effect_of m s) (heap_of st, data_of st) ms.
Proof.
  revert st. induction ms as [|m ms IH]; intros st; simpl.
  - by intros [= ->].
  - destruct (try_modifier m st) as [st1 [x|]] eqn:Hm; [done|].
    intros Hrun%IH. by rewrite Hrun, (try_modifier_quiet _ _ _ Hm).
Qed.

(** X11.  When no modifier raises, nothing is logged and the result is
    the modifiers applied one after the other in the order of the list:
    a function of the whole collection gives the next list, a
    field-scoped modifier updates in place the dict at each position in
    turn, so that a dict that sits at two positions is updated twice. *)
Theorem quiet_pipeline_composes h data ms st :
  quiet_run ms (LoopState h data None) = Some st ->
  apply_modifiers h data (Some ms) =
    MkM [] (Ok (foldl (fun s m => effect_of m s) (h, data) ms)).
Proof.
  intros Hrun. pose proof (quiet_run_effect _ _ _ Hrun) as Hd. simpl in Hd.
  rewrite <- Hd. clear Hd.
  destruct ms as [|m ms]; [by injection Hrun as <-|].
  rewrite apply_modifiers_loop by done.
  rewrite <- (app_nil_r (m :: ms)). by rewrite (quiet_run_loop _ _ _ _ Hrun).
Qed.

(** What a pipeline of field-scoped modifiers makes of a list of
    distinct dicts. *)
Lemma field_scoped_records (records : list record) ms :
  Forall (fun m => is_field_scoped m = true) ms ->
  exists final,
    outcome (apply_modifiers_to_records records (Some ms)) = Ok final
    /\ length final = length records
    /\ forall i e e', records !! i = Some e -> final !! i = Some e' -> dom e' = dom e.
Proof.
  intros Hfs. unfold apply_modifiers_to_records.
  pose proof (deref_all_allocate records) as Hrec.
  assert (length (allocate records).2 = length records) as Hlen.
  { simpl. by rewrite length_seq. }
  destruct (allocate records) as [h data]. cbn [fst snd] in *.
  assert (exists h', outcome (apply_modifiers h data (Some ms)) = Ok (h', data)
                     /\ forall r, dom (deref h' r) = dom (deref h r))
    as (h' & Hout & Hk).
  { destruct ms as [|m ms]; [by eexists|].
    apply (field_scoped_loop (m :: ms) (LoopState h data None) Hfs). }
  exists (deref_all h' data).
  split; [|split].
  - unfold mbind, M_bind. rewrite Hout. reflexivity.
  - unfold deref_all. by rewrite length_fmap.
  - intros i e e' He He'. unfold deref_all in *.
    rewrite <- Hrec in He. rewrite list_lookup_fmap in He, He'.
    destruct (data !! i) as [r|]; [|done]. simpl in *.
    injection He as <-. injection He' as <-. apply Hk.
Qed.

End ModifiersMore.

(** X9 on the five records, the second of which makes [strip_text]
    raise. *)
Lemma field_scoped_pipeline_returns_witness :
  exists h',
    outcome (apply_modifiers (allocate Demo.five).1 (allocate Demo.five).2
               (Some [FieldScoped Demo.strip_text "meaning";
                      FieldScoped Demo.strip_text "hanja"]))
    = Ok (h', (allocate Demo.five).2)
    /\ length (deref_all h' (allocate Demo.five).2) = 5.
Proof.
  destruct (field_scoped_pipeline_returns (allocate Demo.five).1 (allocate Demo.five).2
              [FieldScoped Demo.strip_text "meaning";
               FieldScoped Demo.strip_text "hanja"])
    as (h' & Hrun & _ & Hlen & _).
  - repeat constructor.
  - exists h'. split; [exact Hrun|exact Hlen].
Defined.

(** X10 on one record: [twice_first] puts the dict at two positions,
    [exclaim] updates it at both and binds [entry], then [third_only]
    raises [IndexError]; the warning shows the dict updated twice. *)
Lemma whole_collection_failure_bound_entry_witness :
  apply_modifiers (allocate [Demo.entry_with "木" (VStr "tree")]).1
    (allocate [Demo.entry_with "木" (VStr "tree")]).2
    (Some ([WholeCollection Demo.twice_first; FieldScoped Demo.exclaim "meaning"]
           ++ WholeCollection Demo.third_only :: []))
  = MkM [Warn (ErrorInModifier (ByName "third_only"));
         Warn (ErrorInEntry (Demo.entry_with "木" (VStr "tree!!")))]
        (Ok ({[ 0 := Demo.entry_with "木" (VStr "tree!!") ]}, [0; 0])).
Proof.
  rewrite (proj1 (whole_collection_failure_bound_entry
                    [WholeCollection Demo.twice_first; FieldScoped Demo.exclaim "meaning"]
                    Demo.third_only []
                    (allocate [Demo.entry_with "木" (VStr "tree")]).1
                    (allocate [Demo.entry_with "木" (VStr "tree")]).2
                    (LoopState {[ 0 := Demo.entry_with "木" (VStr "tree!!") ]}
                       [0; 0] (Some 0))
                    0 IndexError eq_refl eq_refl eq_refl)).
  vm_compute. reflexivity.
Defined.

(** A function of the whole collection that updates a dict in place
    before it raises: the warning shows the dict as the call left it,
    and so does the collection that is returned. *)
Example failed_call_keeps_its_updates :
  apply_modifiers_to_records [Demo.entry_with "木" (VStr " tree")]
    (Some [FieldScoped Demo.strip_text "meaning"; WholeCollection Demo.clear_first])
  = MkM [Warn (ErrorInModifier (ByName "clear_first")); Warn (ErrorInEntry ∅)]
        (Ok [∅]).
Proof. vm_compute. reflexivity. Qed.

(** X11 on one record: after [twice_first] the dict sits at two
    positions, and [exclaim] updates it twice. *)
Lemma quiet_pipeline_composes_witness :
  apply_modifiers (allocate [Demo.entry_with "木" (VStr "tree")]).1
    (allocate [Demo.entry_with "木" (VStr "tree")]).2
    (Some [WholeCollection Demo.twice_first; FieldScoped Demo.exclaim "meaning"])
  = MkM [] (Ok ({[ 0 := Demo.entry_with "木" (VStr "tree!!") ]}, [0; 0])).
Proof.
  rewrite (quiet_pipeline_composes
             (allocate [Demo.entry_with "木" (VStr "tree")]).1
             (allocate [Demo.entry_with "木" (VStr "tree")]).2
             [WholeCollection Demo.twice_first; FieldScoped Demo.exclaim "meaning"]
             (LoopState {[ 0 := Demo.entry_with "木" (VStr "tree!!") ]}
                [0; 0] (Some 0)) eq_refl).
  vm_compute. reflexivity.
Defined.

(** ** More on [scrape_data] and [process_hanja_txt] *)

Lemma for_append_total {A B} (f : A -> pyresult B) l :
  Forall (fun x => is_Ok (f x) = true) l -> exists ys, for_append f l [] = Ok ys.
Proof.
  intros Hall. destruct (for_append f l []) as [ys|e] eqn:Hrun; [eauto|].
  apply for_append_Raise in Hrun as (pre & x & post & -> & _ & Hx).
  apply Forall_app in Hall as [_ Hall]. apply Forall_cons in Hall as [Hok _].
  by rewrite Hx in Hok.
Qed.

Lemma outcome_bind {A B} (m : M A) (f : A -> M B) :
  outcome (m ≫= f) =
  match outcome m with
  | Ok a => outcome (f a)
  | Raise e => Raise e
  end.
Proof. unfold mbind, M_bind. by destruct (outcome m). Qed.

Lemma merge_returns entry_dict (input_data scrapped_hanja : list record) :
  Forall (fun e : record => is_Some (e !! "hanja")) input_data ->
  exists hanja_data,
    merge_data_into_dict entry_dict input_data scrapped_hanja = Ok hanja_data
    /\ Forall (fun r : record => dom r = list_to_set entry_dict ∪ {["hanja"]})
         hanja_data.
Proof.
  intros Hall. unfold merge_data_into_dict.
  destruct (for_append_total (merge_entry entry_dict) (zip input_data scrapped_hanja))
    as [hanja_data Hrun].
  - apply Forall_forall. intros [p s] Hin.
    apply elem_of_zip_l in Hin. rewrite Forall_forall in Hall.
    destruct (Hall p Hin) as [h Hh]. unfold merge_entry, getitem. by rewrite Hh.
  - exists hanja_data. split; [done|]. apply for_append_Ok in Hrun.
    apply Forall_forall. intros r Hin.
    apply list_elem_of_lookup in Hin as [i Hi].
    destruct (Forall2_lookup_r _ _ _ _ _ Hrun Hi) as ([p s] & _ & Hme).
    apply merge_entry_Ok in Hme as (hanja & _ & ->).
    by rewrite merge_fold_dom, dom_singleton_L.
Qed.

Section EnrichmentMore.

Variable scrape_hanja : list value -> list record.
Variable scrape_multiple_words : list (value * value) -> list record.

Lemma scrape_data_returns (input_data : list record) entry_dict :
  Forall (fun e : record => is_Some (e !! "hanja") /\ is_Some (e !! "words"))
    input_data ->
  exists hanjas pairs hanja_data,
    Forall2 (fun (e : record) h => e !! "hanja" = Some h) input_data hanjas
    /\ Forall2 (fun (e : record) hw => e !! "hanja" = Some hw.1 /\ e !! "words" = Some hw.2)
         input_data pairs
    /\ merge_data_into_dict entry_dict input_data (scrape_hanja hanjas) = Ok hanja_data
    /\ Forall (fun r : record => dom r = list_to_set entry_dict ∪ {["hanja"]})
         hanja_data
    /\ scrape_data scrape_hanja scrape_multiple_words input_data entry_dict =
         MkM [ScrapeHanja hanjas; ScrapeWords pairs]
             (Ok (hanja_data, scrape_multiple_words pairs)).
Proof.
  intros Hall. unfold scrape_data, comprehension.
  destruct (for_append_total (fun entry : record => getitem entry "hanja") input_data)
    as [hanjas Hh].
  { eapply Forall_impl; [exact Hall|]. intros e [[h Hh] _]. unfold getitem.
    by rewrite Hh. }
  destruct (for_append_total
              (fun input_entry : record =>
                 h ← getitem input_entry "hanja";
                 w ← getitem input_entry "words"; Ok (h, w)) input_data)
    as [pairs Hw].
  { eapply Forall_impl; [exact Hall|]. intros e [[h Hh'] [w Hw]]. unfold getitem.
    by rewrite Hh', Hw. }
  destruct (merge_returns entry_dict input_data (scrape_hanja hanjas))
    as (hanja_data & Hm & Hdom).
  { eapply Forall_impl; [exact Hall|]. by intros e [? _]. }
  exists hanjas, pairs, hanja_data.
  split; [|split; [|split; [done|split; [done|]]]]; cycle 2.
  { rewrite Hh, Hw. unfold mbind, M_bind, lift, emit. simpl. by rewrite Hm. }
  - apply for_append_Ok in Hh. eapply Forall2_impl; [exact Hh|].
    intros e h. unfold getitem. by destruct (e !! "hanja"); intros [= ->].
  - apply for_append_Ok in Hw. eapply Forall2_impl; [exact Hw|].
    intros e [h w]. unfold getitem.
    destruct (e !! "hanja"), (e !! "words"); simpl; try done. by intros [= -> ->].
Qed.

(** X12.  When every record has "hanja" and "words", [scrape_data] calls
    each collaborator exactly once, [scrape_hanja] first, with one
    identifier (resp. one pair) per record in the order of the records,
    and returns the merge of the records with the answer of
    [scrape_hanja] beside the answer of [scrape_multiple_words]. *)
Theorem enrichment_calls_each_collaborator_once (input_data : list record) entry_dict :
  Forall (fun e : record => is_Some (e !! "hanja") /\ is_Some (e !! "words"))
    input_data ->
  exists hanjas pairs hanja_data,
    scrape_data scrape_hanja scrape_multiple_words input_data entry_dict =
      MkM [ScrapeHanja hanjas; ScrapeWords pairs]
          (Ok (hanja_data, scrape_multiple_words pairs))
    /\ length hanjas = length input_data
    /\ length pairs = length input_data
    /\ (forall i (e : record), input_data !! i = Some e ->
          exists h w, e !! "hanja" = Some h /\ e !! "words" = Some w
                      /\ hanjas !! i = Some h /\ pairs !! i = Some (h, w))
    /\ merge_data_into_dict entry_dict input_data (scrape_hanja hanjas) = Ok hanja_data.
Proof.
  intros Hall.
  destruct (scrape_data_returns input_data entry_dict Hall)
    as (hanjas & pairs & hanja_data & Hh & Hw & Hm & _ & Hrun).
  exists hanjas, pairs, hanja_data. split; [done|].
  split; [symmetry; by eapply Forall2_length|].
  split; [symmetry; by eapply Forall2_length|]. split; [|done].
  intros i e He.
  destruct (Forall2_lookup_l _ _ _ _ _ Hh He) as (h & Hhi & Heh).
  destruct (Forall2_lookup_l _ _ _ _ _ Hw He) as ([h' w] & Hwi & Heh' & Hew).
  simpl in *. exists h, w. rewrite Heh in Heh'. injection Heh' as <-. done.
Qed.

End EnrichmentMore.

(** X12 on one extracted entry. *)
Lemma enrichment_calls_each_collaborator_once_witness :
  exists hanjas pairs hanja_data,
    scrape_data Demo.scrape_hanja Demo.scrape_multiple_words
      [{["hanja" := VStr "木"; "words" := VList ["木手"; "木馬"]]}] ["meaning"]
    = MkM [ScrapeHanja hanjas; ScrapeWords pairs]
          (Ok (hanja_data, Demo.scrape_multiple_words pairs))
    /\ length hanjas = 1.
Proof.
  destruct (enrichment_calls_each_collaborator_once Demo.scrape_hanja
              Demo.scrape_multiple_words
              [{["hanja" := VStr "木"; "words" := VList ["木手"; "木馬"]]}] ["meaning"])
    as (hanjas & pairs & hanja_data & Hrun & Hlen & _).
  - repeat constructor; by eexists.
  - exists hanjas, pairs, hanja_data. split; [exact Hrun|exact Hlen].
Defined.

Section OrchestratorMore.

Variable re_match : regex_engine.
Variable read_file : string -> pyresult string.
Variable scrape_hanja : list value -> list record.
Variable scrape_multiple_words : list (value * value) -> list record.

(** X13.  When the extraction raises (unreadable file, or a chunk that
    does not parse), [process_hanja_txt] raises the same exception and
    no collaborator is called. *)
Theorem process_hanja_txt_extraction_failure file_path patterns entry_list
    hanja_modifiers words_modifiers e :
  process_txt_file re_match read_file file_path patterns default_delimiter = Raise e ->
  process_hanja_txt re_match read_file scrape_hanja scrape_multiple_words
    file_path patterns entry_list hanja_modifiers words_modifiers
  = MkM [] (Raise e).
Proof.
  intros Hfile. unfold process_hanja_txt.
  unfold Str.split at 1. rewrite decide_False by done.
  unfold lift at 1 2. rewrite Hfile. reflexivity.
Qed.

Lemma dict_keys_elem keys k : k ∈ dict_keys keys <-> k ∈ keys.
Proof.
  unfold dict_keys.
  assert (forall acc, k ∈ foldl (fun acc k => if decide (k ∈ acc) then acc else acc ++ [k])
                            acc keys <-> k ∈ acc \/ k ∈ keys) as Hgen.
  { induction keys as [|k' keys IH]; intros acc; simpl.
    - rewrite elem_of_nil. tauto.
    - rewrite IH, elem_of_cons. destruct (decide (k' ∈ acc)) as [Hin|Hnin].
      + split; [tauto|]. intros [?|[->|?]]; tauto.
      + rewrite elem_of_app, list_elem_of_singleton. tauto. }
  rewrite Hgen, elem_of_nil. tauto.
Qed.

Lemma apply_field_scoped_only (data : list record) modifiers :
  field_scoped_only modifiers = true ->
  exists final,
    outcome (apply_modifiers_to_records data modifiers) = Ok final
    /\ Forall2 same_keys data final.
Proof.
  intros Hfs.
  assert (exists ms, Forall (fun m => is_field_scoped m = true) ms
                     /\ apply_modifiers_to_records data modifiers
                        = apply_modifiers_to_records data (Some ms))
    as (ms & Hms & ->).
  { destruct modifiers as [ms|]; [exists ms|by exists []]. split; [|done].
    apply Forall_forall. intros m' Hm'.
    change (forallb is_field_scoped ms = true) in Hfs.
    rewrite forallb_forall in Hfs. apply Hfs. by apply list_elem_of_In. }
  destruct (field_scoped_records data ms Hms) as (final & Hout & Hlen & Hk).
  exists final. split; [done|].
  apply Forall2_same_length_lookup. split; [done|].
  intros i a b Ha Hb. unfold same_keys. by eapply Hk.
Qed.

(** X14.  When the extraction returns records that all have "hanja" and
    "words" and the modifiers are field-scoped (or absent),
    [process_hanja_txt] returns, and every record of its first component
    has exactly the keys listed in [entry_list] between the bars, and
    "hanja". *)
Theorem process_hanja_txt_key_sets file_path patterns entry_list
    hanja_modifiers words_modifiers input_hanja :
  process_txt_file re_match read_file file_path patterns default_delimiter
    = Ok input_hanja ->
  Forall (fun e : record => is_Some (e !! "hanja") /\ is_Some (e !! "words"))
    input_hanja ->
  field_scoped_only hanja_modifiers = true ->
  field_scoped_only words_modifiers = true ->
  exists hanja_data scrapped_words keys,
    outcome (process_hanja_txt re_match read_file scrape_hanja scrape_multiple_words
               file_path patterns entry_list hanja_modifiers words_modifiers)
      = Ok (hanja_data, scrapped_words)
    /\ Str.split entry_list "|" = Ok keys
    /\ Forall (fun r : record => dom r = list_to_set keys ∪ {["hanja"]}) hanja_data.
Proof.
  intros Hfile Hall Hhm Hwm.
  destruct (scrape_data_returns scrape_hanja scrape_multiple_words input_hanja
              (dict_keys (Str.split_go "|" entry_list 0 "")) Hall)
    as (hanjas & pairs & hanja_data & _ & _ & _ & Hdom & Hrun).
  destruct (apply_field_scoped_only hanja_data hanja_modifiers Hhm)
    as (final & Hfinal & Hkeys).
  destruct (apply_field_scoped_only (scrape_multiple_words pairs) words_modifiers Hwm)
    as (wfinal & Hwfinal & _).
  exists final, wfinal, (Str.split_go "|" entry_list 0 "").
  split; [|split].
  - unfold process_hanja_txt. unfold Str.split at 1. rewrite decide_False by done.
    rewrite outcome_bind. cbn [lift outcome].
    rewrite outcome_bind. cbn [lift outcome]. rewrite Hfile.
    rewrite outcome_bind, Hrun. cbn [outcome].
    rewrite outcome_bind, Hfinal, outcome_bind, Hwfinal. reflexivity.
  - unfold Str.split. by rewrite decide_False.
  - apply Forall_forall. intros r Hin.
    apply list_elem_of_lookup in Hin as [i Hi].
    destruct (Forall2_lookup_r _ _ _ _ _ Hkeys Hi) as (r0 & Hr0 & Hsame).
    rewrite Forall_forall in Hdom. unfold same_keys in Hsame. rewrite Hsame.
    rewrite (Hdom r0) by (by eapply list_elem_of_lookup_2).
    f_equal. apply set_eq. intros k. rewrite !elem_of_list_to_set.
    apply dict_keys_elem.
Qed.

End OrchestratorMore.

(** X13 on a file that does not exist. *)
Lemma process_hanja_txt_extraction_failure_witness :
  process_hanja_txt Demo.re_match Demo.read_file Demo.scrape_hanja
    Demo.scrape_multiple_words "missing.txt" Demo.patterns "meaning|radical"
    None None
  = MkM [] (Raise OSError).
Proof.
  apply (process_hanja_txt_extraction_failure Demo.re_match Demo.read_file
           Demo.scrape_hanja Demo.scrape_multiple_words "missing.txt"
           Demo.patterns "meaning|radical" None None OSError).
  reflexivity.
Defined.

(** X14 on the example file, with a schema that names "radical" twice. *)
Lemma process_hanja_txt_key_sets_witness :
  exists hanja_data scrapped_words keys,
    outcome (process_hanja_txt Demo.re_match Demo.read_file Demo.scrape_hanja
               Demo.scrape_multiple_words "hanja.txt" Demo.patterns
               "radical|meaning|radical"
               (Some [FieldScoped Demo.strip_text "meaning"]) None)
      = Ok (hanja_data, scrapped_words)
    /\ Str.split "radical|meaning|radical" "|" = Ok keys
    /\ Forall (fun r : record => dom r = list_to_set keys ∪ {["hanja"]}) hanja_data.
Proof.
  apply (process_hanja_txt_key_sets Demo.re_match Demo.read_file Demo.scrape_hanja
           Demo.scrape_multiple_words "hanja.txt" Demo.patterns
           "radical|meaning|radical"
           (Some [FieldScoped Demo.strip_text "meaning"]) None
           [ {["hanja" := VStr "木"; "meaning" := VStr "tree";
               "words" := VList ["木手"; "木馬"]]};
             {["hanja" := VStr "門"; "meaning" := VStr "gate";
               "words" := VList ["大門"; "窓門"]]} ]).
  - vm_compute. reflexivity.
  - repeat constructor; by eexists.
  - reflexivity.
  - reflexivity.
Defined.

(** X15.  Resolving a path twice is resolving it once; the resolved path
    is under [data/input/], except for an absolute path, which is
    returned as it is. *)
Theorem input_path_idempotent file_path :
  input_path (input_path file_path) = input_path file_path
  /\ (Str.startswith (input_path file_path) "data/input/" = true
      \/ (Str.startswith file_path "/" = true /\ input_path file_path = file_path)).
Proof.
  unfold input_path, Str.path_join.
  destruct (Str.startswith file_path "data/input/") eqn:Hin.
  - rewrite Hin. auto.
  - destruct (Str.startswith file_path "/") eqn:Habs.
    + rewrite Hin, Habs. auto.
    + assert (Str.startswith ("data/input" +:+ "/" +:+ file_path) "data/input/" = true)
        as Hres by (by destruct file_path).
      rewrite Hres. auto.
Qed.

(** ** [main.py] *)

Module MainFacts.
Import MainScript.

(** The second character of [hanja_list] in UTF-8: the bytes of U+F9D1. *)
Example hanja_list_second_character :
  (fun s : string => nat_of_ascii <$> String.list_ascii_of_string s) <$> hanja_list !! 1
  = Some [239; 167; 145].
Proof. reflexivity. Qed.

Section MainProofs.

Context {E : Type}.
Variable get_hanja_data : string -> E + fetched.

Lemma run_bind_say {A} ev (f : unit -> run E A) :
  run_bind (say ev) f = Run (ev :: log (f ())) (res (f ())).
Proof. reflexivity. Qed.

Lemma write_rows_cons fieldnames (r : row) (rest : list row) :
  write_rows (E:=E) fieldnames (r :: rest) =
  match dict_to_list fieldnames r with
  | Done cells =>
      Run (CsvRow cells :: log (write_rows (E:=E) fieldnames rest))
          (res (write_rows (E:=E) fieldnames rest))
  | Failed e => Run [] (Failed e)
  end.
Proof.
  cbn [write_rows]. by destruct (dict_to_list fieldnames r).
Qed.

Lemma dict_to_list_fit fieldnames (r : row) :
  fits fieldnames r = true ->
  dict_to_list (E:=E) fieldnames r = Done (cells_of fieldnames r).
Proof.
  intros Hr%bool_decide_eq_true. unfold dict_to_list. by rewrite decide_True.
Qed.

Lemma dict_to_list_bad fieldnames (r : row) :
  fits fieldnames r = false ->
  dict_to_list (E:=E) fieldnames r
  = Failed (ValueError_fields (dom r ∖ list_to_set fieldnames)).
Proof.
  intros Hr%bool_decide_eq_false. unfold dict_to_list. by rewrite decide_False.
Qed.

Lemma write_rows_fit fieldnames (data : list row) :
  Forall (fun r => fits fieldnames r = true) data ->
  write_rows (E:=E) fieldnames data
  = Run ((fun r => CsvRow (cells_of fieldnames r)) <$> data) (Done ()).
Proof.
  induction data as [|r data IH]; intros Hfit; [done|].
  apply Forall_cons in Hfit as [Hr Hfit].
  rewrite write_rows_cons, dict_to_list_fit, IH by done. reflexivity.
Qed.

Lemma write_rows_bad fieldnames (before after : list row) bad :
  Forall (fun r => fits fieldnames r = true) before ->
  fits fieldnames bad = false ->
  write_rows (E:=E) fieldnames (before ++ bad :: after)
  = Run ((fun r => CsvRow (cells_of fieldnames r)) <$> before)
        (Failed (ValueError_fields (dom bad ∖ list_to_set fieldnames))).
Proof.
  intros Hfit Hbad. induction before as [|r before IH].
  - simpl app. by rewrite write_rows_cons, dict_to_list_bad.
  - apply Forall_cons in Hfit as [Hr Hfit].
    rewrite <- app_comm_cons, write_rows_cons, dict_to_list_fit, IH by done.
    reflexivity.
Qed.

Lemma export_to_csv_fit fieldnames (data : list row) :
  Forall (fun r => fits fieldnames r = true) data ->
  export_to_csv (E:=E) None fieldnames data
  = Run (CsvOpened :: CsvHeader fieldnames
         :: ((fun r => CsvRow (cells_of fieldnames r)) <$> data))
        (Done ()).
Proof.
  intros Hfit. unfold export_to_csv.
  rewrite !run_bind_say, write_rows_fit by done. reflexivity.
Qed.

(** X16.  When the file opens and every row has its keys among
    [fieldnames], [export_to_csv] writes the header and then one line per
    row, in order, whose cells follow the order of [fieldnames], with the
    empty string for a field that the row lacks. *)
Theorem export_writes_every_row fieldnames (data : list row) :
  Forall (fun r => fits fieldnames r = true) data ->
  export_to_csv (E:=E) None fieldnames data
  = Run (CsvOpened :: CsvHeader fieldnames
         :: ((fun r => CsvRow (cells_of fieldnames r)) <$> data))
        (Done ())
  /\ Forall (fun r => length (cells_of fieldnames r) = length fieldnames) data.
Proof.
  intros Hfit. split.
  - by apply export_to_csv_fit.
  - apply Forall_forall. intros r _. unfold cells_of. apply length_fmap.
Qed.

(** X17.  At the first row with a key outside [fieldnames],
    [export_to_csv] raises [ValueError] naming the unknown keys: the
    header and the rows before it are written, that row and the rows
    after it are not. *)
Theorem export_stops_at_unknown_field fieldnames (before after : list row) bad :
  Forall (fun r => fits fieldnames r = true) before ->
  fits fieldnames bad = false ->
  export_to_csv (E:=E) None fieldnames (before ++ bad :: after)
  = Run (CsvOpened :: CsvHeader fieldnames
         :: ((fun r => CsvRow (cells_of fieldnames r)) <$> before))
        (Failed (ValueError_fields (dom bad ∖ list_to_set fieldnames))).
Proof.
  intros Hfit Hbad. unfold export_to_csv.
  rewrite !run_bind_say, write_rows_bad by done. reflexivity.
Qed.

Lemma fetch_loop_returns total idx hanjas results acc :
  Forall2 (fun hanja result => get_hanja_data hanja = inr result) hanjas results ->
  fetch_loop get_hanja_data total idx hanjas acc
  = Run (fetch_lines total idx hanjas results) (Done (acc ++ results)).
Proof.
  intros Hall. revert idx acc.
  induction Hall as [|hanja result hanjas results Hget _ IH]; intros idx acc.
  - simpl. by rewrite app_nil_r.
  - cbn [fetch_loop fetch_lines]. rewrite Hget, run_bind_say, IH.
    by rewrite <- (assoc_L (++)).
Qed.

Lemma fetch_loop_raises total idx before hanja after results acc e :
  Forall2 (fun hanja result => get_hanja_data hanja = inr result) before results ->
  get_hanja_data hanja = inl e ->
  fetch_loop get_hanja_data total idx (before ++ hanja :: after) acc
  = Run (fetch_lines total idx before results) (Failed (External e)).
Proof.
  intros Hall Hraise. revert idx acc.
  induction Hall as [|h result before results Hget _ IH]; intros idx acc.
  - cbn [app fetch_loop fetch_lines]. by rewrite Hraise.
  - rewrite <- app_comm_cons. cbn [fetch_loop fetch_lines].
    by rewrite Hget, run_bind_say, IH.
Qed.

Lemma fetch_lines_not_csv total idx hanjas results :
  Forall (fun ev => is_csv ev = false /\ ev <> BrowserQuit)
    (fetch_lines total idx hanjas results).
Proof.
  revert idx results. induction hanjas as [|h hanjas IH]; intros idx [|r results];
    simpl; try constructor; [|apply IH].
  unfold fetch_line. by destruct (r.1.2).
Qed.

Lemma csv_entry_line (result : fetched) hanja_id cells :
  result.1.2 = Some hanja_id ->
  csv_line result = Some cells ->
  exists entry, csv_entry (E:=E) result hanja_id = Done entry
                /\ fits fieldnames entry = true
                /\ cells_of fieldnames entry = cells.
Proof.
  destruct result as [[hanja id] info]. simpl. intros ->.
  unfold csv_line, csv_entry. simpl.
  destruct info as [info|]; [|done].
  destruct (Formation_Letter info) as [letters|]; [|done].
  intros [= <-]. eexists. split; [done|]. split; reflexivity.
Qed.

(** The rows that the alignment loop builds for results that are well
    formed and do not lack formation letters. *)
Lemma align_returns (results : list fetched) acc :
  Forall (fun r => well_formed r = true) results ->
  Forall (fun r => lacks_formation r = false) results ->
  exists csv_data,
    align (E:=E) results acc = Done (acc ++ csv_data)
    /\ Forall (fun r => fits fieldnames r = true) csv_data
    /\ cells_of fieldnames <$> csv_data = omap csv_line results.
Proof.
  revert acc. induction results as [|r results IH]; intros acc Hwf Hform.
  - exists []. simpl. by rewrite app_nil_r.
  - apply Forall_cons in Hwf as [Hr Hwf]. apply Forall_cons in Hform as [Hf Hform].
    cbn [align omap list_omap].
    destruct (csv_line r) as [cells|] eqn:Hline.
    + assert (exists hanja_id, r.1.2 = Some hanja_id) as [hanja_id Hid].
      { unfold csv_line in Hline. destruct (r.1.2); [eauto|done]. }
      rewrite Hid.
      destruct (csv_entry_line r hanja_id cells Hid Hline) as (entry & -> & Hfit & Hc).
      destruct (IH (acc ++ [entry]) Hwf Hform) as (csv_data & -> & Hfits & Hcells).
      exists (entry :: csv_data). rewrite <- (assoc_L (++)). split; [done|].
      split; [by constructor|]. rewrite fmap_cons, Hc, Hcells. done.
    + assert (r.1.2 = None) as ->.
      { unfold csv_line in Hline. unfold well_formed in Hr. unfold lacks_formation in Hf.
        destruct (r.1.2), (r.2) as [info|]; try done.
        by destruct (Formation_Letter info). }
      apply IH; done.
Qed.

Lemma align_type_error (results : list fetched) acc :
  Forall (fun r => well_formed r = true) results ->
  Exists (fun r => lacks_formation r = true) results ->
  align (E:=E) results acc = Failed TypeError_join.
Proof.
  intros Hwf Hex. revert acc.
  induction results as [|r results IH]; intros acc; [by inversion Hex|].
  apply Forall_cons in Hwf as [Hr Hwf]. cbn [align].
  unfold well_formed in Hr. unfold lacks_formation in IH, Hex.
  destruct (r.1.2) as [hanja_id|] eqn:Hid.
  - unfold csv_entry. destruct (r.2) as [info|] eqn:Hinfo; [|done].
    destruct (Formation_Letter info) as [letters|] eqn:Hletters; [|done].
    apply IH; [done|]. apply Exists_cons in Hex as [Hex|Hex]; [|done].
    unfold lacks_formation in Hex. by rewrite Hid, Hinfo, Hletters in Hex.
  - apply IH; [done|]. apply Exists_cons in Hex as [Hex|Hex]; [|done].
    unfold lacks_formation in Hex. by rewrite Hid in Hex.
Qed.

Lemma main_with_fetched open_csv hanja_list results :
  Forall2 (fun hanja result => get_hanja_data hanja = inr result) hanja_list results ->
  main_with get_hanja_data open_csv hanja_list =
  match align (E:=E) results [] with
  | Done csv_data =>
      Run (BrowserStarted :: fetch_lines (length hanja_list) 1 hanja_list results
           ++ BrowserQuit :: LogCrawlFinished
              :: log (export_to_csv open_csv fieldnames csv_data)
           ++ match res (export_to_csv open_csv fieldnames csv_data) with
              | Done _ => [LogExportFinished]
              | Failed _ => []
              end)
          (res (export_to_csv open_csv fieldnames csv_data))
  | Failed e =>
      Run (BrowserStarted :: fetch_lines (length hanja_list) 1 hanja_list results
           ++ [BrowserQuit; LogCrawlFinished])
          (Failed e)
  end.
Proof.
  intros Hall. unfold main_with. rewrite run_bind_say.
  rewrite (fetch_loop_returns _ _ _ _ [] Hall). simpl app.
  unfold run_bind, lift_result, say. cbn [res log].
  destruct (align results []) as [csv_data|e]; cbn [res log].
  - destruct (export_to_csv open_csv fieldnames csv_data) as [lg [[]|e]];
      cbn [log res]; f_equal; rewrite ?app_nil_r, ?app_nil_l, <- ?app_assoc;
      reflexivity.
  - by rewrite app_nil_r.
Qed.

(** X18.  When every character is fetched and one that was found has no
    formation letters ([None]), [main] raises [TypeError] in
    [", ".join(...)]: the browser was quit and the crawl reported as
    finished, and nothing of the CSV file is written, not even for the
    characters before that one. *)
Theorem main_type_error_without_formation open_csv hanja_list results :
  Forall2 (fun hanja result => get_hanja_data hanja = inr result) hanja_list results ->
  Forall (fun r => well_formed r = true) results ->
  Exists (fun r => lacks_formation r = true) results ->
  main_with get_hanja_data open_csv hanja_list
  = Run (BrowserStarted :: fetch_lines (length hanja_list) 1 hanja_list results
         ++ [BrowserQuit; LogCrawlFinished])
        (Failed TypeError_join)
  /\ Forall (fun ev => is_csv ev = false)
       (log (main_with get_hanja_data open_csv hanja_list)).
Proof.
  intros Hall Hwf Hex.
  assert (main_with get_hanja_data open_csv hanja_list
          = Run (BrowserStarted :: fetch_lines (length hanja_list) 1 hanja_list results
                 ++ [BrowserQuit; LogCrawlFinished]) (Failed TypeError_join)) as Hrun.
  { rewrite (main_with_fetched _ _ _ Hall). by rewrite align_type_error. }
  split; [done|]. rewrite Hrun. cbn [log].
  constructor; [done|]. apply Forall_app. split.
  - eapply Forall_impl; [apply fetch_lines_not_csv|]. by intros ev [? _].
  - by repeat constructor.
Qed.

(** X19.  When every character is fetched, the file opens, and every
    character that was found has formation letters, [main] returns: it
    logs one line per character, numbered from 1, quits the browser, and
    writes the header and one line per found character, in the order of
    the list; a character that was not found gets no line. *)
Theorem main_writes_found_characters hanja_list results :
  Forall2 (fun hanja result => get_hanja_data hanja = inr result) hanja_list results ->
  Forall (fun r => well_formed r = true) results ->
  Forall (fun r => lacks_formation r = false) results ->
  main_with get_hanja_data None hanja_list
  = Run (BrowserStarted :: fetch_lines (length hanja_list) 1 hanja_list results
         ++ BrowserQuit :: LogCrawlFinished :: CsvOpened :: CsvHeader fieldnames
            :: (CsvRow <$> omap csv_line results) ++ [LogExportFinished])
        (Done ()).
Proof.
  intros Hall Hwf Hform. rewrite (main_with_fetched _ _ _ Hall).
  destruct (align_returns results [] Hwf Hform) as (csv_data & Halign & Hfit & Hcells).
  rewrite app_nil_l in Halign. rewrite Halign.
  rewrite (export_to_csv_fit _ _ Hfit). cbn [log res].
  rewrite <- Hcells, <- list_fmap_compose. reflexivity.
Qed.

(** X20.  When [get_hanja_data] raises, [main] ends with that exception
    after the log lines of the characters before: the browser is never
    quit and no CSV file is written. *)
Theorem main_fetch_exception open_csv before hanja after results e :
  Forall2 (fun hanja result => get_hanja_data hanja = inr result) before results ->
  get_hanja_data hanja = inl e ->
  main_with get_hanja_data open_csv (before ++ hanja :: after)
  = Run (BrowserStarted
         :: fetch_lines (length (before ++ hanja :: after)) 1 before results)
        (Failed (External e))
  /\ BrowserQuit ∉ log (main_with get_hanja_data open_csv (before ++ hanja :: after)).
Proof.
  intros Hall Hraise.
  assert (main_with get_hanja_data open_csv (before ++ hanja :: after)
          = Run (BrowserStarted
                 :: fetch_lines (length (before ++ hanja :: after)) 1 before results)
                (Failed (External e))) as Hrun.
  { unfold main_with. rewrite run_bind_say.
    rewrite (fetch_loop_raises _ _ _ _ _ _ _ _ Hall Hraise). reflexivity. }
  split; [done|]. rewrite Hrun. cbn [log].
  intros [?|Hin]%elem_of_cons; [done|].
  pose proof (fetch_lines_not_csv (length (before ++ hanja :: after)) 1 before results)
    as Hlines.
  rewrite Forall_forall in Hlines. by destruct (Hlines _ Hin).
Qed.

End MainProofs.

(** X16 on a row that lacks six of the eight fields. *)
Lemma export_writes_every_row_witness :
  export_to_csv (E:=string) None fieldnames [MainDemo.school_row]
  = Run [CsvOpened; CsvHeader fieldnames;
         CsvRow [CStr "校"; CStr "school"; CStr ""; CStr ""; CStr ""; CStr "";
                 CStr ""; CStr ""]]
        (Done ()).
Proof.
  apply (proj1 (export_writes_every_row (E:=string) fieldnames [MainDemo.school_row]
                  ltac:(repeat constructor))).
Defined.

(** X17 on a row with a key that is no field, after one that fits. *)
Lemma export_stops_at_unknown_field_witness :
  export_to_csv (E:=string) None ["hanja"; "meaning"]
    ([MainDemo.school_row] ++ {["hanja" := CStr "木"; "radical" := CStr "木"]}
       :: [MainDemo.school_row])
  = Run [CsvOpened; CsvHeader ["hanja"; "meaning"]; CsvRow [CStr "校"; CStr "school"]]
        (Failed (ValueError_fields {["radical"]})).
Proof.
  rewrite (export_stops_at_unknown_field (E:=string) ["hanja"; "meaning"]
             [MainDemo.school_row] [MainDemo.school_row]
             {["hanja" := CStr "木"; "radical" := CStr "木"]}
             ltac:(repeat constructor) eq_refl).
  vm_compute. reflexivity.
Defined.

(** X18 on a found character with formation letters followed by one
    without. *)
Lemma main_type_error_without_formation_witness :
  main_with MainDemo.get_hanja_data None ["校"; "木"]
  = Run [BrowserStarted; LogFetched 1 2 "校"; LogFetched 2 2 "木";
         BrowserQuit; LogCrawlFinished]
        (Failed TypeError_join).
Proof.
  apply (proj1 (main_type_error_without_formation MainDemo.get_hanja_data None
                  ["校"; "木"]
                  [("校", Some "a1b2", Some MainDemo.school_info);
                   ("木", Some "c3d4", Some MainDemo.tree_info)]
                  ltac:(repeat constructor) ltac:(repeat constructor)
                  ltac:(apply Exists_cons_tl, Exists_cons_hd; reflexivity))).
Defined.

(** X19 on a found character and one that the search does not find. *)
Lemma main_writes_found_characters_witness :
  main_with MainDemo.get_hanja_data None ["校"; "々"]
  = Run [BrowserStarted; LogFetched 1 2 "校"; LogFetchFailed 2 2 "々";
         BrowserQuit; LogCrawlFinished; CsvOpened; CsvHeader fieldnames;
         CsvRow [CStr "校"; CStr "school"; CStr "木"; CInt 10; CStr "木, 交";
                 CStr "U+6821"; CStr "education, grade 8"; CStr "a1b2"];
         LogExportFinished]
        (Done ()).
Proof.
  apply (main_writes_found_characters MainDemo.get_hanja_data ["校"; "々"]
           [("校", Some "a1b2", Some MainDemo.school_info); ("々", None, None)]).
  - repeat constructor.
  - repeat constructor.
  - repeat constructor.
Defined.

(** X20 on a browser that fails on the second of three characters. *)
Lemma main_fetch_exception_witness :
  main_with MainDemo.get_hanja_data None (["校"] ++ "萬" :: ["木"])
  = Run [BrowserStarted; LogFetched 1 3 "校"]
        (Failed (External "NoSuchElementException")).
Proof.
  apply (proj1 (main_fetch_exception MainDemo.get_hanja_data None ["校"] "萬" ["木"]
                  [("校", Some "a1b2", Some MainDemo.school_info)]
                  "NoSuchElementException"
                  ltac:(repeat constructor) eq_refl)).
Defined.

End MainFacts.
